(** * Commission engine of the referral system

    A shallow embedding of [src/utils/commissionCalculator.ts] together with
    the data contracts ([types]) and configuration ([config]) it reads.

    Modelling conventions.
    - [Decimal] (decimal.js) is the type [Qc] of rationals in canonical form:
      arithmetic is exact and equal values are equal terms.  The rounding of
      decimal.js at 20 significant digits and its NaN / Infinity values are
      outside the model.
    - A JavaScript [number] holding a rate is read through [new Decimal(..)],
      hence also a [Qc]; integer numbers (priorities, levels) are [Z] or [nat].
    - A [Date] is its epoch time in milliseconds, a [Z].
    - An optional field [f?: T] is an [option T].
    - The asynchronous [calculateCommissionDistribution] awaits nothing, its
      promise is modelled by the value it resolves to. *)

From stdpp Require Import base decidable numbers list strings gmap sorting.
From Stdlib Require Import QArith Qcanon.

Open Scope Qc_scope.

(** ** Data contracts *)

Abbreviation Decimal := Qc (only parsing).

(** [new Decimal(n)] for an integer literal [n]. *)
Definition dec (n : Z) : Decimal := Q2Qc (inject_Z n).

(** [new Decimal(x)] for a decimal literal written as the fraction [n / d]. *)
Definition frac (n : Z) (d : positive) : Decimal := Q2Qc (n # d).

Inductive CommissionStatus := UNCLAIMED | CLAIMED | PROCESSING | FAILED.

Global Instance CommissionStatus_eq_dec : EqDecision CommissionStatus.
Proof. solve_decision. Defined.

Inductive StructureType := KOL_50 | KOL_CUSTOM | STANDARD.

Module CustomCommissionStructure.
Record t := mk {
  level1Rate : option Decimal;
  level2Rate : option Decimal;
  level3Rate : option Decimal;
  type : StructureType;
  description : option string;
}.
End CustomCommissionStructure.

Module User.
Record t := mk {
  id : string;
  email : string;
  username : option string;
  referralCode : string;
  referrerId : option string;
  feeTier : string;
  customFeeRate : option Decimal;
  feeDiscountRate : Decimal;
  customCommissionStructure : option CustomCommissionStructure.t;
  isTeamMember : bool;
  isWaivedFees : bool;
  totalXpEarned : Decimal;
  totalTradeVolume : Decimal;
  totalFeesPaid : Decimal;
  createdAt : Z;
  updatedAt : Z;
  lastActiveAt : Z;
}.
End User.

Module Commission.
Record t := mk {
  id : string;
  amount : Decimal;
  tokenType : string;
  commissionLevel : Z;
  rate : Decimal;
  earnerId : string;
  sourceUserId : string;
  tradeId : string;
  originalFeeAmount : Decimal;
  status : CommissionStatus;
  claimedAt : option Z;
  claimId : option string;
  createdAt : Z;
  updatedAt : Z;
}.
End Commission.

Module Trade.
Record t := mk {
  id : string;
  userId : string;
  tradeType : string;
  baseAsset : string;
  quoteAsset : string;
  side : string;
  volume : Decimal;
  price : Decimal;
  feeRate : Decimal;
  feeAmount : Decimal;
  netFeeAmount : Decimal;
  rebateAmount : Decimal;
  chain : string;
  network : string;
  transactionHash : option string;
  status : string;
  settledAt : option Z;
  createdAt : Z;
  updatedAt : Z;
}.
End Trade.

Module FeeTier.
Record t := mk {
  id : string;
  name : string;
  minimumVolume : Decimal;
  feeRate : Decimal;
  description : option string;
  isActive : bool;
  priority : Z;
  createdAt : Z;
  updatedAt : Z;
}.
End FeeTier.

Record FeeCalculationResult := {
  originalFeeRate : Decimal;
  appliedFeeRate : Decimal;
  feeAmount : Decimal;
  netFeeAmount : Decimal;
  rebateAmount : Decimal;
  discountApplied : bool;
  tierUsed : string;
}.

Record CommissionDistribution := {
  level : nat;
  earnerId : string;
  earnerEmail : string;
  amount : Decimal;
  rate : Decimal;
  commissionId : string;
}.

Global Instance FeeCalculationResult_eq_dec : EqDecision FeeCalculationResult.
Proof. solve_decision. Defined.

Global Instance CommissionDistribution_eq_dec : EqDecision CommissionDistribution.
Proof. solve_decision. Defined.

(** ** Configuration *)

Record Rates := {
  level1 : Decimal;
  level2 : Decimal;
  level3 : Decimal;
}.

Record CommissionConfig := {
  maxDepth : nat;
  rates : Rates;
  defaultFeeDiscount : Decimal;
  baseFeeRate : Decimal;
}.

(** [referralConfig] is read from the process environment; the calculator is
    therefore parameterised by a [CommissionConfig], and this is the value it
    has when no variable is set. *)
Definition defaultReferralConfig : CommissionConfig := {|
  maxDepth := 3;
  rates := {| level1 := frac 30 100; level2 := frac 3 100; level3 := frac 2 100 |};
  defaultFeeDiscount := frac 10 100;
  baseFeeRate := frac 1 100;
|}.

(** The two entries of [businessRules] that the calculator reads; both are
    literals in [config]. *)
Record BusinessRules := {
  maxReferralDepth : nat;
  minimumCommissionAmount : Decimal;
}.

Definition businessRules : BusinessRules := {|
  maxReferralDepth := 3;
  minimumCommissionAmount := frac 1 100;
|}.

(** ** Array.prototype.sort with the comparator [(a, b) => b.priority - a.priority]

    The sort of ECMAScript is stable; a stable sort is determined by its
    comparator, so an insertion sort stands for it.  [insertTier] puts a tier
    that preceded all of [sorted] in the input before the first tier whose
    priority is not strictly higher. *)

Fixpoint insertTier (tier : FeeTier.t) (sorted : list FeeTier.t) : list FeeTier.t :=
  match sorted with
  | [] => [tier]
  | other :: rest =>
      if bool_decide (FeeTier.priority tier < FeeTier.priority other)%Z
      then other :: insertTier tier rest
      else tier :: other :: rest
  end.

Definition sortByPriorityDesc (tiers : list FeeTier.t) : list FeeTier.t :=
  foldr insertTier [] tiers.

(** [higherFirst a b]: the comparator does not put [b] before [a]; the order
    in which the sorted array lists the tiers. *)
Definition higherFirst (a b : FeeTier.t) : Prop :=
  (FeeTier.priority b ≤ FeeTier.priority a)%Z.

(** [availableFeeTiers.filter((tier) => tier.isActive).sort(..)] *)
Definition activeTiersByPriority (availableFeeTiers : list FeeTier.t) : list FeeTier.t :=
  sortByPriorityDesc (filter (λ tier, FeeTier.isActive tier = true) availableFeeTiers).

(** The scanning loop shared by the fee-rate resolver and the tier selector:
    the first tier, in the given order, whose [minimumVolume] the volume
    reaches ([volume.gte(tier.minimumVolume)]). *)
Fixpoint firstQualifying (volume : Decimal) (tiers : list FeeTier.t) : option FeeTier.t :=
  match tiers with
  | [] => None
  | tier :: rest =>
      if bool_decide (FeeTier.minimumVolume tier ≤ volume)
      then Some tier
      else firstQualifying volume rest
  end.

(** ** calculateEffectiveFeeRate *)

Definition calculateEffectiveFeeRate (referralConfig : CommissionConfig)
    (user : User.t) (tradeVolume : Decimal) (availableFeeTiers : list FeeTier.t)
    : FeeCalculationResult :=
  if User.isTeamMember user || User.isWaivedFees user then
    {| originalFeeRate := dec 0; appliedFeeRate := dec 0; feeAmount := dec 0;
       netFeeAmount := dec 0; rebateAmount := dec 0;
       discountApplied := false; tierUsed := "WAIVED" |}
  else
    match User.customFeeRate user with
    | Some customFeeRate =>
        let feeAmount := tradeVolume * customFeeRate in
        {| originalFeeRate := customFeeRate; appliedFeeRate := customFeeRate;
           feeAmount := feeAmount; netFeeAmount := feeAmount;
           rebateAmount := dec 0; discountApplied := false; tierUsed := "CUSTOM" |}
    | None =>
        let baseFeeRate := baseFeeRate referralConfig in
        let applicableTiers := activeTiersByPriority availableFeeTiers in
        let bestTier := firstQualifying (User.totalTradeVolume user) applicableTiers in
        let discountedBaseRate := baseFeeRate * (dec 1 - User.feeDiscountRate user) in
        let '(effectiveRate, tierUsed, discountApplied) :=
          match bestTier with
          | Some tier =>
              if bool_decide (FeeTier.feeRate tier < discountedBaseRate)
              then (FeeTier.feeRate tier, FeeTier.name tier, false)
              else (discountedBaseRate, "BASE"%string,
                    bool_decide (dec 0 < User.feeDiscountRate user))
          | None =>
              (discountedBaseRate, "BASE"%string,
               bool_decide (dec 0 < User.feeDiscountRate user))
          end in
        let feeAmount := tradeVolume * baseFeeRate in
        let netFeeAmount := tradeVolume * effectiveRate in
        let rebateAmount := feeAmount - netFeeAmount in
        {| originalFeeRate := baseFeeRate; appliedFeeRate := effectiveRate;
           feeAmount := feeAmount; netFeeAmount := netFeeAmount;
           rebateAmount := rebateAmount; discountApplied := discountApplied;
           tierUsed := tierUsed |}
    end.

(** ** calculateCommissionDistribution *)

(** [getCustomCommissionRate]: [rate ?? standard] keeps every rate that is
    set, a zero rate included. *)
Definition getCustomCommissionRate (referralConfig : CommissionConfig)
    (customStructure : CustomCommissionStructure.t) (level : nat) : Decimal :=
  match level with
  | 1%nat => default (level1 (rates referralConfig))
               (CustomCommissionStructure.level1Rate customStructure)
  | 2%nat => default (level2 (rates referralConfig))
               (CustomCommissionStructure.level2Rate customStructure)
  | 3%nat => default (level3 (rates referralConfig))
               (CustomCommissionStructure.level3Rate customStructure)
  | _ => dec 0
  end.

Definition getCommissionRate (referralConfig : CommissionConfig)
    (referrer : User.t) (level : nat) : Decimal :=
  match User.customCommissionStructure referrer with
  | Some customStructure => getCustomCommissionRate referralConfig customStructure level
  | None =>
      match level with
      | 1%nat => level1 (rates referralConfig)
      | 2%nat => level2 (rates referralConfig)
      | 3%nat => level3 (rates referralConfig)
      | _ => dec 0
      end
  end.

(** One iteration of the loop over [level]: the distributions collected so
    far, extended by at most one entry.  The loop bound keeps
    [level - 1] inside the chain, so the [None] case is never taken. *)
Definition distributionStep (referralConfig : CommissionConfig)
    (referralChain : list User.t) (netFeeAmount : Decimal)
    (distributions : list CommissionDistribution) (level : nat)
    : list CommissionDistribution :=
  match referralChain !! (level - 1)%nat with
  | None => distributions
  | Some referrer =>
      if User.isTeamMember referrer then distributions
      else
        let commissionRate := getCommissionRate referralConfig referrer level in
        let commissionAmount := netFeeAmount * commissionRate in
        if bool_decide (minimumCommissionAmount businessRules ≤ commissionAmount)
        then distributions ++
             [ {| level := level; earnerId := User.id referrer;
                  earnerEmail := User.email referrer;
                  amount := commissionAmount; rate := commissionRate;
                  commissionId := "" |} ]
        else distributions
  end.

(** [for (level = 1; level <= Math.min(chain.length, maxReferralDepth); level++)] *)
Definition calculateCommissionDistribution (referralConfig : CommissionConfig)
    (trade : Trade.t) (trader : User.t) (referralChain : list User.t)
    (feeCalculationResult : FeeCalculationResult) : list CommissionDistribution :=
  let netFeeAmount := netFeeAmount feeCalculationResult in
  if bool_decide (netFeeAmount ≤ dec 0) then []
  else
    foldl (distributionStep referralConfig referralChain netFeeAmount) []
      (seq 1 (length referralChain `min` maxReferralDepth businessRules)).

(** ** validateReferralChain *)

(** The loop that fills [userIds : Set<string>]; [true] when it meets an id
    that the set already holds (where the source returns [false]). *)
Fixpoint hasRepeatedId (userIds : gset string) (referralChain : list User.t) : bool :=
  match referralChain with
  | [] => false
  | user :: rest =>
      if bool_decide (User.id user ∈ userIds) then true
      else hasRepeatedId ({[ User.id user ]} ∪ userIds) rest
  end.

Definition validateReferralChain (userId : string) (referralChain : list User.t) : bool :=
  if existsb (λ user, bool_decide (User.id user = userId)) referralChain then false
  else if hasRepeatedId ∅ referralChain then false
  else if bool_decide (maxReferralDepth businessRules < length referralChain)%nat then false
  else true.

(** ** calculateOptimalFeeTier

    [None] is the [undefined] that [activeTiers[0]] yields when no tier is
    active. *)
Definition calculateOptimalFeeTier (userVolume : Decimal)
    (availableFeeTiers : list FeeTier.t) : option FeeTier.t :=
  let activeTiers := activeTiersByPriority availableFeeTiers in
  match firstQualifying userVolume activeTiers with
  | Some tier => Some tier
  | None =>
      match List.find (λ tier, bool_decide (FeeTier.name tier = "BASE")) activeTiers with
      | Some tier => Some tier
      | None => head activeTiers
      end
  end.

(** ** calculateEarningsBreakdown *)

Record EarningsBreakdown := {
  totalEarnings : Decimal;
  claimedEarnings : Decimal;
  unclaimedEarnings : Decimal;
  earningsByLevel : gmap Z Decimal;
  earningsByToken : gmap string Decimal;
  earningsByPeriod : list (Z * Decimal);
}.

(** [list.reduce((sum, commission) => sum.add(commission.amount), new Decimal(0))] *)
Definition sumAmounts (commissions : list Commission.t) : Decimal :=
  foldl (λ sum commission, sum + Commission.amount commission) (dec 0) commissions.

(** The callback of the date filter, with its two early returns. *)
Definition inDateRange (startDate endDate : option Z) (commission : Commission.t) : bool :=
  let commissionDate := Commission.createdAt commission in
  if (match startDate with
      | Some startDate => bool_decide (commissionDate < startDate)%Z
      | None => false
      end) then false
  else if (match endDate with
           | Some endDate => bool_decide (endDate < commissionDate)%Z
           | None => false
           end) then false
  else true.

Definition filterByDateRange (commissions : list Commission.t)
    (startDate endDate : option Z) : list Commission.t :=
  match startDate, endDate with
  | None, None => commissions
  | _, _ => List.filter (inDateRange startDate endDate) commissions
  end.

(** [createdAt.toISOString().split('T')[0]] names the UTC calendar day of the
    instant; the model keeps the number of that day since the epoch, which
    orders the days as [localeCompare] orders their names for the years
    0000 to 9999. *)
Definition dateKey (commission : Commission.t) : Z :=
  (Commission.createdAt commission `div` 86400000)%Z.

(** The order of [earningsByPeriod.sort((a, b) => a.date.localeCompare(b.date))]. *)
Definition earlierDay (a b : Z * Decimal) : Prop := (a.1 ≤ b.1)%Z.

Global Instance earlierDay_dec : RelDecision earlierDay.
Proof. intros a b. unfold earlierDay. apply _. Defined.

Global Instance earlierDay_total : Total earlierDay.
Proof. intros a b. unfold earlierDay. lia. Qed.

Global Instance earlierDay_trans : Transitive earlierDay.
Proof. intros a b c. unfold earlierDay. lia. Qed.

Definition calculateEarningsBreakdown (commissions : list Commission.t)
    (startDate endDate : option Z) : EarningsBreakdown :=
  let filteredCommissions := filterByDateRange commissions startDate endDate in
  let totalEarnings := sumAmounts filteredCommissions in
  let claimedEarnings :=
    sumAmounts
      (List.filter (λ commission, bool_decide (Commission.status commission = CLAIMED))
         filteredCommissions) in
  let unclaimedEarnings := totalEarnings - claimedEarnings in
  let earningsByLevel :=
    foldl (λ (byLevel : gmap Z Decimal) (level : Z),
             <[ level :=
                sumAmounts
                  (List.filter
                     (λ commission,
                        bool_decide (Commission.commissionLevel commission = level))
                     filteredCommissions) ]> byLevel)
      ∅ [1; 2; 3]%Z in
  let earningsByToken :=
    foldl (λ (byToken : gmap string Decimal) commission,
             let tokenType := Commission.tokenType commission in
             let byToken :=
               match byToken !! tokenType with
               | Some _ => byToken
               | None => <[ tokenType := dec 0 ]> byToken
               end in
             <[ tokenType :=
                default (dec 0) (byToken !! tokenType) + Commission.amount commission ]>
               byToken)
      ∅ filteredCommissions in
  let dailyEarnings :=
    foldl (λ (daily : gmap Z Decimal) commission,
             let current := default (dec 0) (daily !! dateKey commission) in
             <[ dateKey commission := current + Commission.amount commission ]> daily)
      ∅ filteredCommissions in
  let earningsByPeriod :=
    merge_sort earlierDay (map_to_list dailyEarnings) in
  {| totalEarnings := totalEarnings; claimedEarnings := claimedEarnings;
     unclaimedEarnings := unclaimedEarnings; earningsByLevel := earningsByLevel;
     earningsByToken := earningsByToken; earningsByPeriod := earningsByPeriod |}.

(** ** calculateNetworkValue *)

Record NetworkValue := {
  totalVolume : Decimal;
  totalCommissions : Decimal;
  averageCommissionRate : Decimal;
  networkSize : nat;
}.

Definition calculateNetworkValue (networkUsers : list User.t)
    (commissions : list Commission.t) : NetworkValue :=
  let totalVolume :=
    foldl (λ sum user, sum + User.totalTradeVolume user) (dec 0) networkUsers in
  let totalCommissions :=
    foldl (λ sum commission, sum + Commission.amount commission) (dec 0) commissions in
  let averageCommissionRate :=
    if bool_decide (dec 0 < totalVolume)
    then totalCommissions / totalVolume
    else dec 0 in
  {| totalVolume := totalVolume; totalCommissions := totalCommissions;
     averageCommissionRate := averageCommissionRate;
     networkSize := length networkUsers |}.

(** ** DatabaseService.getReferralChain ([services/database.ts])

    The user table is a finite map from the primary key [id] to the row;
    [prisma.user.findUnique({ where: { id } })] and [findUserById] are its
    lookup.  The reads of one call see one snapshot of the table. *)

(** The truthiness test of an optional string: [null], [undefined] and the
    empty string are falsy.  It is also [value || null]. *)
Definition truthy (value : option string) : option string :=
  match value with
  | Some "" => None
  | Some s => Some s
  | None => None
  end.

(** The loop of [getReferralChain] from the iteration that has [depth]
    iterations left; the result lists the referrers pushed from there on. *)
Fixpoint referralChainLoop (db : gmap string User.t) (depth : nat)
    (currentUserId : option string) : list User.t :=
  match depth with
  | O => []
  | S depth =>
      match truthy currentUserId with
      | None => []
      | Some currentUserId =>
          match db !! currentUserId with
          | None => []
          | Some user =>
              match truthy (User.referrerId user) with
              | None => []
              | Some referrerId =>
                  match db !! referrerId with
                  | None => []
                  | Some referrer =>
                      referrer ::
                      referralChainLoop db depth (truthy (User.referrerId referrer))
                  end
              end
          end
      end
  end.

Definition getReferralChain (db : gmap string User.t) (userId : string)
    : list User.t :=
  referralChainLoop db (maxReferralDepth businessRules) (Some userId).

(** ** ReferralService.updateUserFeeTier

    The call either throws or returns its report; the only write it requests
    is [updateUser(userId, { feeTier })], recorded as the new tier name.
    [feeTiers] is the catalog the service holds. *)

Inductive Thrown :=
  | ApiError (code : string)
  | TypeError.

Record FeeTierUpdate := {
  oldTier : string;
  newTier : string;
  updated : bool;
}.

Inductive Outcome :=
  | Threw (error : Thrown)
  | Returned (report : FeeTierUpdate) (write : option string).

Definition updateUserFeeTier (db : gmap string User.t) (feeTiers : list FeeTier.t)
    (userId : string) : Outcome :=
  match db !! userId with
  | None => Threw (ApiError "USER_NOT_FOUND")
  | Some user =>
      match calculateOptimalFeeTier (User.totalTradeVolume user) feeTiers with
      | None => Threw TypeError
      | Some optimalTier =>
          if bool_decide (FeeTier.name optimalTier ≠ User.feeTier user)
          then Returned {| oldTier := User.feeTier user;
                           newTier := FeeTier.name optimalTier;
                           updated := true |}
                 (Some (FeeTier.name optimalTier))
          else Returned {| oldTier := User.feeTier user;
                           newTier := User.feeTier user;
                           updated := false |}
                 None
      end
  end.

(** ** Vocabulary of the statements *)



(** The entry, if any, that the iteration for [level] pushes. *)
Definition distributionAt (referralConfig : CommissionConfig)
    (referralChain : list User.t) (netFeeAmount : Decimal) (level : nat)
    : option CommissionDistribution :=
  head (distributionStep referralConfig referralChain netFeeAmount [] level).

(** The date window of the aggregator, both bounds inclusive; an absent bound
    does not constrain. *)
Definition withinWindow (startDate endDate : option Z) (commission : Commission.t)
    : Prop :=
  from_option (λ s, s ≤ Commission.createdAt commission)%Z True startDate ∧
  from_option (λ e, Commission.createdAt commission ≤ e)%Z True endDate.

Global Instance withinWindow_dec startDate endDate commission :
  Decision (withinWindow startDate endDate commission).
Proof. unfold withinWindow. destruct startDate, endDate; simpl; apply _. Defined.


(** The row that a user names as referrer, if the name is set and found. *)
Definition referrerOf (db : gmap string User.t) (user : User.t) : option User.t :=
  truthy (User.referrerId user) ≫= λ referrerId, db !! referrerId.

(** The referrer of the referrer. *)
Definition grandReferrerOf (db : gmap string User.t) (user : User.t) : option User.t :=
  referrerOf db user ≫= referrerOf db.

(** ** Sample data

    The fixtures of [tests/unit/commissionCalculator.test.ts]; [new Date()]
    is taken at the epoch. *)

(** [createMockUser({ id, email, feeDiscountRate, totalTradeVolume,
    isTeamMember, customCommissionStructure })] *)
Definition createMockUser (id email : string)
    (feeDiscountRate totalTradeVolume : Decimal) (isTeamMember : bool)
    (customCommissionStructure : option CustomCommissionStructure.t) : User.t :=
  {| User.id := id; User.email := email; User.username := Some "testuser"%string;
     User.referralCode := "NIKATEST"; User.referrerId := None;
     User.feeTier := "BASE"; User.customFeeRate := None;
     User.feeDiscountRate := feeDiscountRate;
     User.customCommissionStructure := customCommissionStructure;
     User.isTeamMember := isTeamMember; User.isWaivedFees := false;
     User.totalXpEarned := dec 0; User.totalTradeVolume := totalTradeVolume;
     User.totalFeesPaid := dec 0;
     User.createdAt := 0; User.updatedAt := 0; User.lastActiveAt := 0 |}.

Definition plainUser (id : string) : User.t :=
  createMockUser id "test@example.com" (dec 0) (dec 0) false None.

Definition teamUser : User.t :=
  createMockUser "team" "team@test.com" (dec 0) (dec 0) true None.

Definition mockTier (id name : string) (minimumVolume feeRate : Decimal)
    (priority : Z) (isActive : bool) : FeeTier.t :=
  {| FeeTier.id := id; FeeTier.name := name;
     FeeTier.minimumVolume := minimumVolume; FeeTier.feeRate := feeRate;
     FeeTier.description := None; FeeTier.isActive := isActive;
     FeeTier.priority := priority;
     FeeTier.createdAt := 0; FeeTier.updatedAt := 0 |}.

Definition baseTier : FeeTier.t := mockTier "1" "BASE" (dec 0) (frac 1 100) 0 true.
Definition tier1 : FeeTier.t := mockTier "2" "TIER1" (dec 10000) (frac 8 1000) 1 true.
Definition vipTier : FeeTier.t := mockTier "3" "VIP" (dec 1000000) (frac 3 1000) 4 true.

Definition mockFeeTiers : list FeeTier.t := [baseTier; tier1; vipTier].

(** The same catalog after the base tier has been switched off. *)
Definition tiersWithoutBase : list FeeTier.t :=
  [mockTier "1" "BASE" (dec 0) (frac 1 100) 0 false; tier1; vipTier].

Definition mockTrade : Trade.t :=
  {| Trade.id := "trade-1"; Trade.userId := "user-1"; Trade.tradeType := "SPOT";
     Trade.baseAsset := "BTC"; Trade.quoteAsset := "USDC"; Trade.side := "BUY";
     Trade.volume := dec 1; Trade.price := dec 50000;
     Trade.feeRate := frac 1 100; Trade.feeAmount := dec 500;
     Trade.netFeeAmount := dec 450; Trade.rebateAmount := dec 50;
     Trade.chain := "EVM"; Trade.network := "Arbitrum";
     Trade.transactionHash := None; Trade.status := "COMPLETED";
     Trade.settledAt := Some 0%Z; Trade.createdAt := 0; Trade.updatedAt := 0 |}.

Definition mockFeeResult (netFeeAmount : Decimal) : FeeCalculationResult :=
  {| originalFeeRate := frac 1 100; appliedFeeRate := frac 9 1000;
     feeAmount := dec 500; netFeeAmount := netFeeAmount; rebateAmount := dec 50;
     discountApplied := true; tierUsed := "BASE" |}.

(** A user who was referred by [referrerId]. *)
Definition referredUser (id : string) (referrerId : option string) : User.t :=
  {| User.id := id; User.email := "test@example.com";
     User.username := Some "testuser"%string;
     User.referralCode := "NIKATEST"; User.referrerId := referrerId;
     User.feeTier := "BASE"; User.customFeeRate := None;
     User.feeDiscountRate := dec 0; User.customCommissionStructure := None;
     User.isTeamMember := false; User.isWaivedFees := false;
     User.totalXpEarned := dec 0; User.totalTradeVolume := dec 0;
     User.totalFeesPaid := dec 0;
     User.createdAt := 0; User.updatedAt := 0; User.lastActiveAt := 0 |}.

(** A user table with one line of descent: u was referred by a, a by b, b by
    c, and c by nobody. *)
Definition sampleTable : gmap string User.t :=
  list_to_map
    [ ("u"%string, referredUser "u" (Some "a"%string));
      ("a"%string, referredUser "a" (Some "b"%string));
      ("b"%string, referredUser "b" (Some "c"%string));
      ("c"%string, referredUser "c" None) ].

(** A user of the given volume and assigned tier, alone in the table. *)
Definition volumeUser (totalTradeVolume : Decimal) (feeTier : string) : User.t :=
  {| User.id := "user-1"; User.email := "test@example.com";
     User.username := Some "testuser"%string;
     User.referralCode := "NIKATEST"; User.referrerId := None;
     User.feeTier := feeTier; User.customFeeRate := None;
     User.feeDiscountRate := dec 0; User.customCommissionStructure := None;
     User.isTeamMember := false; User.isWaivedFees := false;
     User.totalXpEarned := dec 0; User.totalTradeVolume := totalTradeVolume;
     User.totalFeesPaid := dec 0;
     User.createdAt := 0; User.updatedAt := 0; User.lastActiveAt := 0 |}.

Definition mockCommission (amount : Decimal) (status : CommissionStatus)
    (commissionLevel : Z) (tokenType : string) (createdAt : Z) : Commission.t :=
  {| Commission.id := "commission-1"; Commission.amount := amount;
     Commission.tokenType := tokenType;
     Commission.commissionLevel := commissionLevel;
     Commission.rate := frac 30 100; Commission.earnerId := "level1";
     Commission.sourceUserId := "user-1"; Commission.tradeId := "trade-1";
     Commission.originalFeeAmount := dec 500; Commission.status := status;
     Commission.claimedAt := None; Commission.claimId := None;
     Commission.createdAt := createdAt; Commission.updatedAt := createdAt |}.

(** Three commissions: two in USDC on the first day after the epoch, one in
    SOL on the epoch day. *)
Definition mockCommissions : list Commission.t :=
  [ mockCommission (dec 5) CLAIMED 1 "USDC" 86400000;
    mockCommission (dec 7) FAILED 2 "SOL" 5;
    mockCommission (dec 11) UNCLAIMED 1 "USDC" 86400001 ].

(** * Properties *)

(** ** The decimal literals *)

Lemma dec_0 : dec 0 = 0.
Proof. reflexivity. Qed.

Lemma dec_1 : dec 1 = 1.
Proof. reflexivity. Qed.

(** ** The priority sort: a stable sorted permutation *)

Section priority_sort.
Implicit Types (tier : FeeTier.t) (tiers : list FeeTier.t).

Lemma insertTier_perm tier tiers : insertTier tier tiers ≡ₚ tier :: tiers.
Proof.
  induction tiers as [|other rest IH]; simpl; [done|].
  case_bool_decide; [|done].
  rewrite IH. apply Permutation_swap.
Qed.

Lemma sortByPriorityDesc_perm tiers : sortByPriorityDesc tiers ≡ₚ tiers.
Proof.
  induction tiers as [|tier rest IH]; simpl; [done|].
  rewrite insertTier_perm. by f_equiv.
Qed.

Lemma insertTier_sorted tier tiers :
  StronglySorted higherFirst tiers →
  StronglySorted higherFirst (insertTier tier tiers).
Proof.
  induction 1 as [|other rest Hrest IH Hall]; simpl.
  - repeat constructor.
  - case_bool_decide as Hlt.
    + constructor; [done|].
      rewrite insertTier_perm. constructor; [|done].
      unfold higherFirst. lia.
    + constructor; [by constructor|].
      constructor; [unfold higherFirst; lia|].
      eapply Forall_impl; [exact Hall|].
      unfold higherFirst. intros; lia.
Qed.

Lemma sortByPriorityDesc_sorted tiers :
  StronglySorted higherFirst (sortByPriorityDesc tiers).
Proof.
  induction tiers; simpl; [constructor|by apply insertTier_sorted].
Qed.

(** Stability: tiers of one priority keep their catalog order. *)
Lemma insertTier_stable (p : Z) tier tiers :
  filter (λ t, FeeTier.priority t = p) (insertTier tier tiers)
  = filter (λ t, FeeTier.priority t = p) (tier :: tiers).
Proof.
  induction tiers as [|other rest IH]; simpl; [done|].
  case_bool_decide as Hlt; [|done].
  rewrite !filter_cons in *.
  repeat case_decide; simplify_eq; try lia; by rewrite IH.
Qed.

Lemma sortByPriorityDesc_stable (p : Z) tiers :
  filter (λ t, FeeTier.priority t = p) (sortByPriorityDesc tiers)
  = filter (λ t, FeeTier.priority t = p) tiers.
Proof.
  induction tiers as [|tier rest IH]; simpl; [done|].
  rewrite insertTier_stable, !filter_cons, IH. done.
Qed.

Lemma elem_of_activeTiersByPriority tier tiers :
  tier ∈ activeTiersByPriority tiers ↔ tier ∈ tiers ∧ FeeTier.isActive tier = true.
Proof.
  unfold activeTiersByPriority.
  rewrite sortByPriorityDesc_perm, list_elem_of_filter. tauto.
Qed.
End priority_sort.

(** ** The scan for the first qualifying tier *)

Section first_qualifying.
Implicit Types (tier : FeeTier.t) (tiers : list FeeTier.t) (volume : Decimal).

Lemma firstQualifying_Some volume tiers tier :
  firstQualifying volume tiers = Some tier ↔
  ∃ before after,
    tiers = before ++ tier :: after ∧
    FeeTier.minimumVolume tier ≤ volume ∧
    Forall (λ t, ¬ FeeTier.minimumVolume t ≤ volume) before.
Proof.
  induction tiers as [|t rest IH]; simpl.
  - split; [done|]. intros ([|??] & ? & ? & _); done.
  - case_bool_decide as Hq.
    + split.
      * intros [= ->]. exists [], rest. by repeat split.
      * intros ([|t' before] & after & Heq & ? & Hall); simplify_eq/=; [done|].
        by inversion_clear Hall.
    + rewrite IH. split.
      * intros (before & after & -> & ? & ?).
        exists (t :: before), after. repeat split; [done|by constructor].
      * intros ([|t' before] & after & Heq & ? & Hall); simplify_eq/=; [done|].
        inversion_clear Hall. eauto.
Qed.

Lemma firstQualifying_None volume tiers :
  firstQualifying volume tiers = None ↔
  Forall (λ t, ¬ FeeTier.minimumVolume t ≤ volume) tiers.
Proof.
  induction tiers as [|t rest IH]; simpl; [by split|].
  case_bool_decide.
  - split; [done|]. by inversion_clear 1.
  - rewrite IH. split; [by constructor|by inversion_clear 1].
Qed.

(** The scan is monotone in the volume, whatever the order of the list: a
    tier that a larger volume reaches earlier in the list was out of reach
    of the smaller volume. *)
Lemma firstQualifying_mono (v1 v2 : Decimal) tiers tier1 :
  v1 ≤ v2 →
  firstQualifying v1 tiers = Some tier1 →
  ∃ tier2, firstQualifying v2 tiers = Some tier2 ∧
           FeeTier.minimumVolume tier1 ≤ FeeTier.minimumVolume tier2.
Proof.
  intros Hle. induction tiers as [|t rest IH]; simpl; [done|].
  destruct (decide (FeeTier.minimumVolume t ≤ v1)) as [Hq1|Hq1].
  - rewrite !bool_decide_eq_true_2 by (done || by etrans).
    intros [= ->]. eauto.
  - rewrite (bool_decide_eq_false_2 _ Hq1). intros Hrest.
    case_bool_decide as Hq2; [|by apply IH].
    exists t. split; [done|].
    apply firstQualifying_Some in Hrest as (_ & _ & _ & Hq & _).
    apply Qcnot_le_lt in Hq1. apply Qclt_le_weak.
    by eapply Qcle_lt_trans.
Qed.
End first_qualifying.

(** The best tier of the resolver is a qualifying active tier of highest
    priority. *)
Lemma bestTier_highest_priority (volume : Decimal) (tiers : list FeeTier.t)
    (best : FeeTier.t) :
  firstQualifying volume (activeTiersByPriority tiers) = Some best →
  best ∈ tiers ∧ FeeTier.isActive best = true ∧
  FeeTier.minimumVolume best ≤ volume ∧
  ∀ other, other ∈ tiers → FeeTier.isActive other = true →
           FeeTier.minimumVolume other ≤ volume →
           (FeeTier.priority other ≤ FeeTier.priority best)%Z.
Proof.
  intros (before & after & Heq & Hq & Hbefore)%firstQualifying_Some.
  assert (Hin : best ∈ activeTiersByPriority tiers)
    by (rewrite Heq; set_solver).
  apply elem_of_activeTiersByPriority in Hin as [? ?].
  repeat split; [done..|].
  intros other Hother Hact Hqo.
  assert (Hino : other ∈ activeTiersByPriority tiers)
    by (by apply elem_of_activeTiersByPriority).
  pose proof (sortByPriorityDesc_sorted
    (filter (λ tier, FeeTier.isActive tier = true) tiers)) as Hsorted.
  fold (activeTiersByPriority tiers) in Hsorted.
  rewrite Heq in Hino, Hsorted.
  apply elem_of_app in Hino as [Hino|Hino].
  - rewrite Forall_forall in Hbefore. by destruct (Hbefore _ Hino).
  - apply elem_of_cons in Hino as [->|Hino]; [done|].
    apply StronglySorted_app in Hsorted as (_ & _ & Hsorted).
    apply StronglySorted_cons in Hsorted as [Hall _].
    rewrite Forall_forall in Hall. by apply Hall.
Qed.

(** ** The fee-rate resolver *)

Section fee_rate.
Variable referralConfig : CommissionConfig.
Implicit Types (user : User.t) (tradeVolume : Decimal) (tiers : list FeeTier.t).

(** C1. An account with [isTeamMember] or [isWaivedFees] gets the all-zero
    result with [tierUsed = 'WAIVED'] and [discountApplied = false], whatever
    its other fields, the trade value and the tier catalog are. *)
Theorem waived_account_pays_nothing user tradeVolume tiers :
  User.isTeamMember user = true ∨ User.isWaivedFees user = true →
  calculateEffectiveFeeRate referralConfig user tradeVolume tiers
  = {| originalFeeRate := 0; appliedFeeRate := 0; feeAmount := 0;
       netFeeAmount := 0; rebateAmount := 0;
       discountApplied := false; tierUsed := "WAIVED" |}.
Proof.
  intros Hwaived. unfold calculateEffectiveFeeRate.
  assert (User.isTeamMember user || User.isWaivedFees user = true) as ->
    by (destruct Hwaived as [-> | ->]; [done|apply orb_true_r]).
  done.
Qed.

End fee_rate.

(** ** Bounds on the resolved rate *)

Section decimal_order.
Implicit Types x y z : Decimal.

Lemma Qcmult_nonneg x y : 0 ≤ x → 0 ≤ y → 0 ≤ x * y.
Proof.
  intros Hx Hy. rewrite <-(Qcmult_0_l y). by apply Qcmult_le_compat_r.
Qed.

Lemma Qcmult_le_mono_nonneg_l x y z : 0 ≤ z → x ≤ y → z * x ≤ z * y.
Proof.
  intros Hz Hxy. rewrite !(Qcmult_comm z). by apply Qcmult_le_compat_r.
Qed.


End decimal_order.

Section fee_rate_bounds.
Variable referralConfig : CommissionConfig.
Hypothesis base_nonneg : 0 ≤ baseFeeRate referralConfig.
Implicit Types (user : User.t) (tradeVolume : Decimal) (tiers : list FeeTier.t).


End fee_rate_bounds.

(** ** The commission distributor *)

Section distribution.
Variable referralConfig : CommissionConfig.
Implicit Types (trade : Trade.t) (trader : User.t) (chain : list User.t).
Implicit Types (fee : FeeCalculationResult) (d : CommissionDistribution).
Implicit Types (net : Decimal) (N : nat).


(** Each iteration appends to the list and never reads it. *)
Lemma distributionStep_app chain net (acc : list CommissionDistribution) N :
  distributionStep referralConfig chain net acc N
  = acc ++ option_list (distributionAt referralConfig chain net N).
Proof.
  unfold distributionAt, distributionStep.
  destruct (chain !! _) as [referrer|]; simpl; [|by rewrite app_nil_r].
  destruct (User.isTeamMember referrer); simpl; [by rewrite app_nil_r|].
  case_bool_decide; simpl; [done|by rewrite app_nil_r].
Qed.

Lemma foldl_distributionStep chain net (acc : list CommissionDistribution)
    (levels : list nat) :
  foldl (distributionStep referralConfig chain net) acc levels
  = acc ++ omap (distributionAt referralConfig chain net) levels.
Proof.
  revert acc. induction levels as [|N levels IH]; intros acc; simpl.
  - by rewrite app_nil_r.
  - rewrite IH, distributionStep_app.
    destruct (distributionAt _ _ _ _); simpl; by rewrite <-?app_assoc.
Qed.

Lemma calculateCommissionDistribution_omap trade trader chain fee :
  calculateCommissionDistribution referralConfig trade trader chain fee
  = if bool_decide (netFeeAmount fee ≤ 0) then []
    else omap (distributionAt referralConfig chain (netFeeAmount fee))
           (seq 1 (length chain `min` 3)).
Proof.
  unfold calculateCommissionDistribution. rewrite dec_0.
  case_bool_decide; [done|]. by rewrite foldl_distributionStep.
Qed.

Lemma distributionAt_Some chain net N d :
  distributionAt referralConfig chain net N = Some d ↔
  ∃ referrer,
    chain !! (N - 1)%nat = Some referrer ∧
    User.isTeamMember referrer = false ∧
    minimumCommissionAmount businessRules
      ≤ net * getCommissionRate referralConfig referrer N ∧
    d = {| level := N; earnerId := User.id referrer;
           earnerEmail := User.email referrer;
           amount := net * getCommissionRate referralConfig referrer N;
           rate := getCommissionRate referralConfig referrer N;
           commissionId := "" |}.
Proof.
  unfold distributionAt, distributionStep.
  destruct (chain !! _) as [referrer|]; simpl.
  - destruct (User.isTeamMember referrer) eqn:Hteam; simpl.
    + split; [done|]. intros (? & [= <-] & ? & _). congruence.
    + case_bool_decide as Hmin; simpl.
      * split.
        -- intros [= <-]. by exists referrer.
        -- by intros (? & [= <-] & _ & _ & ->).
      * split; [done|]. by intros (? & [= <-] & _ & ? & _).
  - split; [done|]. by intros (? & ? & _).
Qed.

Lemma elem_of_distribution trade trader chain fee d :
  d ∈ calculateCommissionDistribution referralConfig trade trader chain fee ↔
  0 < netFeeAmount fee ∧
  (1 ≤ level d ≤ length chain `min` 3)%nat ∧
  distributionAt referralConfig chain (netFeeAmount fee) (level d) = Some d.
Proof.
  rewrite calculateCommissionDistribution_omap.
  case_bool_decide as Hnet.
  - split; [by intros ?%elem_of_nil|].
    intros [Hpos _]. by apply Qclt_not_le in Hpos.
  - apply Qcnot_le_lt in Hnet.
    rewrite list_elem_of_omap. setoid_rewrite elem_of_seq. split.
    + intros (N & HN & Hat).
      assert (level d = N) as ->
        by (apply distributionAt_Some in Hat as (? & _ & _ & _ & ->); done).
      split; [done|]. split; [lia|done].
    + intros (_ & HN & Hat). exists (level d). split; [lia|done].
Qed.

(** When a position yields an entry: the guards of the loop, in full. *)
Lemma distribution_emitted_iff trade trader chain fee N (referrer : User.t) :
  (1 ≤ N ≤ length chain `min` 3)%nat →
  chain !! (N - 1)%nat = Some referrer →
  (∃ d, d ∈ calculateCommissionDistribution referralConfig trade trader chain fee
        ∧ level d = N) ↔
  0 < netFeeAmount fee ∧
  User.isTeamMember referrer = false ∧
  minimumCommissionAmount businessRules
    ≤ netFeeAmount fee * getCommissionRate referralConfig referrer N.
Proof.
  intros HN Hlook. split.
  - intros (d & (Hnet & _ & (r & Hlook' & Hteam & Hmin & Hd)%distributionAt_Some)
      %elem_of_distribution & <-).
    by simplify_eq.
  - intros (Hnet & Hteam & Hmin).
    eexists {| level := N |}. split; [|done].
    apply elem_of_distribution. simpl. split_and!; [done|lia..|].
    apply distributionAt_Some. by exists referrer.
Qed.

Lemma distribution_levels_sorted chain net (n : nat) :
  let levels := level <$> omap (distributionAt referralConfig chain net) (seq 1 n) in
  StronglySorted lt levels ∧ Forall (λ N, 1 ≤ N ≤ n)%nat levels.
Proof.
  cbv zeta. induction n as [|n [IHs IHb]].
  - split; constructor.
  - rewrite seq_S, omap_app, fmap_app. simpl.
    destruct (distributionAt _ _ _ _) as [d|] eqn:Hat; simpl.
    + apply distributionAt_Some in Hat as (? & _ & _ & _ & ->). simpl.
      split.
      * apply StronglySorted_app. split_and!; [|done|repeat constructor].
        intros x1 x2 Hx1 ->%list_elem_of_singleton.
        rewrite Forall_forall in IHb. apply IHb in Hx1. lia.
      * apply Forall_app. split; [|constructor; [lia|constructor]].
        eapply Forall_impl; [done|]. simpl. lia.
    + rewrite app_nil_r. split; [done|].
      eapply Forall_impl; [done|]. simpl. lia.
Qed.

Lemma length_omap_le {A B} (f : A → option B) (l : list A) :
  (length (omap f l) ≤ length l)%nat.
Proof.
  induction l as [|x l IH]; simpl; [done|].
  unfold omap in IH. destruct (f x); simpl; lia.
Qed.
Lemma StronglySorted_lt_le (levels : list nat) :
  StronglySorted lt levels → StronglySorted le levels.
Proof.
  induction 1 as [|N levels _ IH Hall]; constructor; [done|].
  eapply Forall_impl; [exact Hall|]. simpl. lia.
Qed.


(** C9. The list of distributions has at most [min (length chain) 3]
    entries, its levels are non-decreasing and each is 1, 2 or 3; and when
    [netFeeAmount <= 0] the list is empty. *)
Theorem distribution_bounded_and_ordered trade trader chain fee :
  let out := calculateCommissionDistribution referralConfig trade trader chain fee in
  (length out ≤ length chain `min` 3)%nat ∧
  StronglySorted le (level <$> out) ∧
  Forall (λ d, level d = 1 ∨ level d = 2 ∨ level d = 3)%nat out ∧
  (netFeeAmount fee ≤ 0 → out = []).
Proof.
  cbv zeta. rewrite calculateCommissionDistribution_omap.
  case_bool_decide as Hnet.
  - split_and!; [simpl; lia|constructor|constructor|done].
  - destruct (distribution_levels_sorted chain (netFeeAmount fee)
                (length chain `min` 3)) as [Hsorted Hrange].
    split_and!; [| |by apply Forall_fmap in Hrange; eapply Forall_impl;
                     [exact Hrange|]; simpl; lia|done].
    + etrans; [apply length_omap_le|]. by rewrite length_seq.
    + by apply StronglySorted_lt_le.
Qed.

(** C10. The distributions do not depend on the [trade] and [trader]
    arguments: two calls with the same chain and the same fee result return
    the same list. *)
Theorem distribution_ignores_trade_and_trader
    (trade1 trade2 : Trade.t) (trader1 trader2 : User.t) chain fee :
  calculateCommissionDistribution referralConfig trade1 trader1 chain fee
  = calculateCommissionDistribution referralConfig trade2 trader2 chain fee.
Proof. reflexivity. Qed.
End distribution.

(** C4. A team member in the chain earns nothing and does not shift the
    levels of the others: no distribution carries the level of a position held
    by a team member, and every distribution names the referrer found at the
    position of its level.  For the chain [[teamMember; plainReferrer]] with
    [netFeeAmount = 450] and the standard rates the result is the single
    distribution of level 2, amount 13.5, rate 0.03, earned by the plain
    referrer. *)
Theorem team_member_skip_keeps_levels
    (trade : Trade.t) (trader : User.t) (fee : FeeCalculationResult)
    (teamMember plainReferrer : User.t) :
  User.isTeamMember teamMember = true →
  User.isTeamMember plainReferrer = false →
  User.customCommissionStructure plainReferrer = None →
  netFeeAmount fee = dec 450 →
  calculateCommissionDistribution defaultReferralConfig trade trader
    [teamMember; plainReferrer] fee
  = [ {| level := 2; earnerId := User.id plainReferrer;
         earnerEmail := User.email plainReferrer;
         amount := frac 135 10; rate := frac 3 100; commissionId := "" |} ]
  ∧
  ∀ (referralConfig : CommissionConfig) (chain : list User.t)
    (trade' : Trade.t) (trader' : User.t) (fee' : FeeCalculationResult)
    (d : CommissionDistribution),
    d ∈ calculateCommissionDistribution referralConfig trade' trader' chain fee' →
    (∃ referrer, chain !! (level d - 1)%nat = Some referrer ∧
                 User.isTeamMember referrer = false ∧
                 earnerId d = User.id referrer) ∧
    (∀ k member, chain !! k = Some member → User.isTeamMember member = true →
                 level d ≠ S k).
Proof.
  intros Hteam Hplain Hcustom Hnet. split.
  - unfold calculateCommissionDistribution. rewrite Hnet. simpl.
    unfold distributionStep, getCommissionRate. simpl.
    rewrite Hteam, Hplain, Hcustom. simpl.
    repeat f_equal. by apply Qc_is_canon.
  - intros cfg chain trade' trader' fee' d
      (_ & Hrange & (referrer & Hlook & Hnoteam & _ & Hd)%distributionAt_Some)
      %elem_of_distribution.
    split.
    + exists referrer. by rewrite Hd.
    + intros k member Hk Hmember Hlevel.
      rewrite Hlevel in Hlook. simpl in Hlook.
      rewrite Nat.sub_0_r in Hlook. congruence.
Qed.

(** ** The referral-chain validator *)

Section validation.
Implicit Types (userId : string) (chain : list User.t) (seen : gset string).

Lemma hasRepeatedId_spec seen chain :
  hasRepeatedId seen chain = true ↔
  (∃ id, id ∈ (User.id <$> chain) ∧ id ∈ seen) ∨ ¬ NoDup (User.id <$> chain).
Proof.
  revert seen. induction chain as [|user rest IH]; intros seen.
  - simpl. split; [done|]. intros [(? & []%elem_of_nil & _) | Hdup].
    destruct Hdup. constructor.
  - rewrite fmap_cons, NoDup_cons. simpl. case_bool_decide as Hseen.
    + split; [|done]. intros _. left. exists (User.id user).
      split; [apply list_elem_of_here|done].
    + rewrite IH. split.
      * intros [(id & Hin & [->%elem_of_singleton|Hs]%elem_of_union) | Hdup].
        -- right. tauto.
        -- left. exists id. split; [by apply list_elem_of_further|done].
        -- right. tauto.
      * intros [(id & [->|Hin]%elem_of_cons & Hs) | Hdup]; [done| |].
        -- left. exists id. split; [done|]. apply elem_of_union. by right.
        -- destruct (decide (User.id user ∈ User.id <$> rest)) as [Hin|Hnin].
           ++ left. exists (User.id user). split; [done|].
              apply elem_of_union. left. by apply elem_of_singleton.
           ++ right. tauto.
Qed.

(** C6. [validateReferralChain] returns false if and only if the candidate
    id occurs in the chain, or some account id occurs more than once in the
    chain, or the chain is longer than the maximum depth 3; otherwise it
    returns true. *)
Theorem validateReferralChain_false_iff userId chain :
  (validateReferralChain userId chain = false ↔
     userId ∈ (User.id <$> chain) ∨
     ¬ NoDup (User.id <$> chain) ∨
     (3 < length chain)%nat) ∧
  (validateReferralChain userId chain = true ↔
     ¬ (userId ∈ (User.id <$> chain) ∨
        ¬ NoDup (User.id <$> chain) ∨
        (3 < length chain)%nat)).
Proof.
  assert (Hself : existsb (λ user, bool_decide (User.id user = userId)) chain = true
                  ↔ userId ∈ (User.id <$> chain)).
  { rewrite existsb_exists, list_elem_of_fmap.
    setoid_rewrite bool_decide_eq_true. setoid_rewrite <-list_elem_of_In.
    split; intros (user & ? & ?); by exists user. }
  assert (Hdup : hasRepeatedId ∅ chain = true ↔ ¬ NoDup (User.id <$> chain)).
  { rewrite hasRepeatedId_spec. split; [|by right].
    intros [(id & _ & []%elem_of_empty) | Hdup]. done. }
  unfold validateReferralChain.
  destruct (existsb _ _); [split; split; (done || tauto)|].
  destruct (hasRepeatedId _ _); [split; split; (done || tauto)|].
  assert (¬ userId ∈ User.id <$> chain) by (intros ?%Hself; done).
  assert (¬ ¬ NoDup (User.id <$> chain)) by (intros ?%Hdup; done).
  change (maxReferralDepth businessRules) with 3%nat.
  case_bool_decide; split; split; (done || tauto || lia).
Qed.
End validation.

(** ** The fee-tier selector *)

Section tier_selection.
Implicit Types (tier : FeeTier.t) (tiers : list FeeTier.t) (volume : Decimal).

Lemma calculateOptimalFeeTier_qualifying volume tiers :
  (∃ tier, tier ∈ tiers ∧ FeeTier.isActive tier = true ∧
           FeeTier.minimumVolume tier ≤ volume) →
  calculateOptimalFeeTier volume tiers
  = firstQualifying volume (activeTiersByPriority tiers)
  ∧ is_Some (calculateOptimalFeeTier volume tiers).
Proof.
  intros (tier & Hin & Hact & Hq). unfold calculateOptimalFeeTier.
  destruct (firstQualifying _ _) as [best|] eqn:Hbest; [by eauto|].
  apply firstQualifying_None in Hbest. rewrite Forall_forall in Hbest.
  destruct (Hbest tier); [|done]. by apply elem_of_activeTiersByPriority.
Qed.

Lemma calculateOptimalFeeTier_fallback volume tiers :
  (∀ tier, tier ∈ tiers → FeeTier.isActive tier = true →
           ¬ FeeTier.minimumVolume tier ≤ volume) →
  calculateOptimalFeeTier volume tiers
  = match List.find (λ tier, bool_decide (FeeTier.name tier = "BASE"))
            (activeTiersByPriority tiers) with
    | Some tier => Some tier
    | None => head (activeTiersByPriority tiers)
    end.
Proof.
  intros Hnone. unfold calculateOptimalFeeTier.
  destruct (firstQualifying _ _) as [best|] eqn:Hbest; [|done].
  apply bestTier_highest_priority in Hbest as (Hin & Hact & Hq & _).
  by destruct (Hnone best).
Qed.

(** An active tier in the catalog is all the selector needs to answer. *)
Lemma calculateOptimalFeeTier_total volume tiers :
  (∃ tier, tier ∈ tiers ∧ FeeTier.isActive tier = true) →
  is_Some (calculateOptimalFeeTier volume tiers).
Proof.
  intros (tier & Hin & Hact). unfold calculateOptimalFeeTier.
  destruct (firstQualifying _ _); [by eauto|].
  destruct (List.find _ _); [by eauto|].
  assert (Hin' : tier ∈ activeTiersByPriority tiers)
    by (by apply elem_of_activeTiersByPriority).
  destruct (activeTiersByPriority tiers); [by apply elem_of_nil in Hin'|by eauto].
Qed.

(** C7, amended. For volumes [v1 <= v2], when some active tier qualifies at
    [v1], or no active tier qualifies at [v2], the tier selected for [v2]
    has a [minimumVolume] at least that of the tier selected for [v1]. *)
Theorem optimal_tier_monotone (v1 v2 : Decimal) tiers tier1 :
  v1 ≤ v2 →
  (∃ tier, tier ∈ tiers ∧ FeeTier.isActive tier = true ∧
           FeeTier.minimumVolume tier ≤ v1)
  ∨ (∀ tier, tier ∈ tiers → FeeTier.isActive tier = true →
             ¬ FeeTier.minimumVolume tier ≤ v2) →
  calculateOptimalFeeTier v1 tiers = Some tier1 →
  ∃ tier2, calculateOptimalFeeTier v2 tiers = Some tier2 ∧
           FeeTier.minimumVolume tier1 ≤ FeeTier.minimumVolume tier2.
Proof.
  intros Hle [Hq1 | Hnone2] Hsel1.
  - assert (Hq2 : ∃ tier, tier ∈ tiers ∧ FeeTier.isActive tier = true ∧
                          FeeTier.minimumVolume tier ≤ v2).
    { destruct Hq1 as (tier & ? & ? & ?). exists tier.
      split_and!; [done..|by etrans]. }
    apply calculateOptimalFeeTier_qualifying in Hq1 as [Heq1 _].
    apply calculateOptimalFeeTier_qualifying in Hq2 as [Heq2 _].
    rewrite Heq1 in Hsel1. rewrite Heq2.
    by eapply firstQualifying_mono.
  - assert (Hnone1 : ∀ tier, tier ∈ tiers → FeeTier.isActive tier = true →
                             ¬ FeeTier.minimumVolume tier ≤ v1).
    { intros tier Hin Hact Hq. apply (Hnone2 tier Hin Hact). by etrans. }
    rewrite calculateOptimalFeeTier_fallback in Hsel1 |- * by done.
    exists tier1. split; [done|]. apply Qcle_refl.
Qed.
End tier_selection.

(** ** The earnings aggregator *)

Section earnings.
Implicit Types (commission : Commission.t) (commissions : list Commission.t).
Implicit Types (startDate endDate : option Z).

Lemma List_filter_bool_decide {A} (P : A → Prop) `{!∀ x, Decision (P x)}
    (l : list A) :
  List.filter (λ x, bool_decide (P x)) l = filter P l.
Proof.
  induction l as [|x l IH]; simpl; [done|].
  rewrite filter_cons, IH. by case_bool_decide; case_decide.
Qed.

Lemma inDateRange_withinWindow startDate endDate commission :
  inDateRange startDate endDate commission
  = bool_decide (withinWindow startDate endDate commission).
Proof.
  unfold inDateRange, withinWindow.
  destruct startDate as [s|], endDate as [e|]; simpl;
    repeat case_bool_decide; try done; lia || tauto.
Qed.

Lemma filterByDateRange_window commissions startDate endDate :
  filterByDateRange commissions startDate endDate
  = filter (withinWindow startDate endDate) commissions.
Proof.
  rewrite <-List_filter_bool_decide.
  assert (List.filter (inDateRange startDate endDate) commissions
          = List.filter (λ c, bool_decide (withinWindow startDate endDate c))
              commissions) as Hfilter.
  { apply List.filter_ext. intros c. apply inDateRange_withinWindow. }
  unfold filterByDateRange.
  destruct startDate, endDate; try done.
  rewrite <-Hfilter. clear Hfilter.
  induction commissions as [|c cs IH]; simpl; [done|]. by rewrite <-IH.
Qed.


Lemma foldl_amount_acc (acc : Decimal) commissions :
  foldl (λ sum commission, sum + Commission.amount commission) acc commissions
  = acc + sumAmounts commissions.
Proof.
  unfold sumAmounts. rewrite dec_0. revert acc.
  induction commissions as [|c cs IH]; intros acc; simpl.
  - ring.
  - rewrite IH, (IH (0 + _)). ring.
Qed.

Lemma sumAmounts_cons commission commissions :
  sumAmounts (commission :: commissions)
  = Commission.amount commission + sumAmounts commissions.
Proof.
  unfold sumAmounts at 1. simpl. rewrite foldl_amount_acc, dec_0. ring.
Qed.


End earnings.

(** * The scenarios of the unit tests *)

Example base_rate_for_new_user :
  calculateEffectiveFeeRate defaultReferralConfig (plainUser "user-1") (dec 1000)
    mockFeeTiers
  = {| originalFeeRate := frac 1 100; appliedFeeRate := frac 1 100;
       feeAmount := dec 10; netFeeAmount := dec 10; rebateAmount := dec 0;
       discountApplied := false; tierUsed := "BASE" |}.
Proof. compute_done. Qed.

Example discount_for_referred_user :
  calculateEffectiveFeeRate defaultReferralConfig
    (createMockUser "user-1" "test@example.com" (frac 10 100) (dec 0) false None)
    (dec 1000) mockFeeTiers
  = {| originalFeeRate := frac 1 100; appliedFeeRate := frac 9 1000;
       feeAmount := dec 10; netFeeAmount := dec 9; rebateAmount := dec 1;
       discountApplied := true; tierUsed := "BASE" |}.
Proof. compute_done. Qed.

Example tier_better_than_discount :
  calculateEffectiveFeeRate defaultReferralConfig
    (createMockUser "user-1" "test@example.com" (frac 10 100) (dec 15000) false None)
    (dec 1000) mockFeeTiers
  = {| originalFeeRate := frac 1 100; appliedFeeRate := frac 8 1000;
       feeAmount := dec 10; netFeeAmount := dec 8; rebateAmount := dec 2;
       discountApplied := false; tierUsed := "TIER1" |}.
Proof. compute_done. Qed.

Example three_level_distribution :
  calculateCommissionDistribution defaultReferralConfig mockTrade (plainUser "trader")
    [plainUser "level1"; plainUser "level2"; plainUser "level3"]
    (mockFeeResult (dec 450))
  = [ {| level := 1; earnerId := "level1"; earnerEmail := "test@example.com";
         amount := dec 135; rate := frac 30 100; commissionId := "" |};
      {| level := 2; earnerId := "level2"; earnerEmail := "test@example.com";
         amount := frac 135 10; rate := frac 3 100; commissionId := "" |};
      {| level := 3; earnerId := "level3"; earnerEmail := "test@example.com";
         amount := dec 9; rate := frac 2 100; commissionId := "" |} ].
Proof. compute_done. Qed.

(** A structure that sets the first level only: the second level of the same
    structure falls back to the standard rate. *)
Example custom_structure_for_kol :
  let kol := createMockUser "kol" "kol@test.com" (dec 0) (dec 0) false
               (Some {| CustomCommissionStructure.level1Rate := Some (frac 50 100);
                        CustomCommissionStructure.level2Rate := None;
                        CustomCommissionStructure.level3Rate := None;
                        CustomCommissionStructure.type := KOL_50;
                        CustomCommissionStructure.description := None |}) in
  calculateCommissionDistribution defaultReferralConfig mockTrade (plainUser "trader")
    [kol; kol] (mockFeeResult (dec 450))
  = [ {| level := 1; earnerId := "kol"; earnerEmail := "kol@test.com";
         amount := dec 225; rate := frac 50 100; commissionId := "" |};
      {| level := 2; earnerId := "kol"; earnerEmail := "kol@test.com";
         amount := frac 135 10; rate := frac 3 100; commissionId := "" |} ].
Proof. compute_done. Qed.

Example zero_fee_distributes_nothing :
  calculateCommissionDistribution defaultReferralConfig mockTrade (plainUser "trader")
    [plainUser "referrer"] (mockFeeResult (dec 0)) = [].
Proof. reflexivity. Qed.

Example chain_validation :
  validateReferralChain "newuser"
    [plainUser "user1"; plainUser "user2"; plainUser "user3"] = true ∧
  validateReferralChain "user1" [plainUser "user1"; plainUser "user2"] = false ∧
  validateReferralChain "newuser"
    [plainUser "user1"; plainUser "user2"; plainUser "user3"; plainUser "user4"]
    = false ∧
  validateReferralChain "newuser"
    [plainUser "user1"; plainUser "user2"; plainUser "user1"] = false.
Proof. split_and!; vm_compute; reflexivity. Qed.

Example optimal_tier_by_volume :
  calculateOptimalFeeTier (dec 1500000) mockFeeTiers = Some vipTier ∧
  calculateOptimalFeeTier (dec 5000) mockFeeTiers = Some baseTier ∧
  calculateOptimalFeeTier (dec 50000) mockFeeTiers = Some tier1.
Proof. split_and!; vm_compute; reflexivity. Qed.

(** * The statements at the fixtures of the unit tests *)

Lemma waived_account_pays_nothing_witness :
  User.isTeamMember teamUser = true ∧
  calculateEffectiveFeeRate defaultReferralConfig teamUser (dec 1000) mockFeeTiers
  = {| originalFeeRate := 0; appliedFeeRate := 0; feeAmount := 0;
       netFeeAmount := 0; rebateAmount := 0;
       discountApplied := false; tierUsed := "WAIVED" |}.
Proof.
  split; [reflexivity|].
  apply (waived_account_pays_nothing defaultReferralConfig teamUser (dec 1000)
           mockFeeTiers).
  left. reflexivity.
Defined.




Lemma team_member_skip_keeps_levels_witness :
  (User.isTeamMember teamUser = true ∧
   User.isTeamMember (plainUser "level2") = false ∧
   User.customCommissionStructure (plainUser "level2") = None ∧
   netFeeAmount (mockFeeResult (dec 450)) = dec 450) ∧
  calculateCommissionDistribution defaultReferralConfig mockTrade (plainUser "trader")
    [teamUser; plainUser "level2"] (mockFeeResult (dec 450))
  = [ {| level := 2; earnerId := "level2"; earnerEmail := "test@example.com";
         amount := frac 135 10; rate := frac 3 100; commissionId := "" |} ].
Proof.
  split; [split_and!; reflexivity|].
  apply (team_member_skip_keeps_levels mockTrade (plainUser "trader")
           (mockFeeResult (dec 450)) teamUser (plainUser "level2")
           eq_refl eq_refl eq_refl eq_refl).
Defined.


Lemma validateReferralChain_false_iff_witness :
  "user1"%string ∈ (User.id <$> [plainUser "user1"; plainUser "user2"]) ∧
  validateReferralChain "user1" [plainUser "user1"; plainUser "user2"] = false.
Proof.
  assert (Hself : "user1"%string
                  ∈ (User.id <$> [plainUser "user1"; plainUser "user2"]))
    by (simpl; left).
  split; [exact Hself|].
  apply (validateReferralChain_false_iff "user1"
           [plainUser "user1"; plainUser "user2"]).
  left. exact Hself.
Defined.

(** 5000 reaches the base tier only, 50000 reaches TIER1. *)
Lemma optimal_tier_monotone_witness :
  (dec 5000 ≤ dec 50000 ∧
   baseTier ∈ mockFeeTiers ∧ FeeTier.isActive baseTier = true ∧
   FeeTier.minimumVolume baseTier ≤ dec 5000 ∧
   calculateOptimalFeeTier (dec 5000) mockFeeTiers = Some baseTier) ∧
  ∃ tier2, calculateOptimalFeeTier (dec 50000) mockFeeTiers = Some tier2 ∧
           FeeTier.minimumVolume baseTier ≤ FeeTier.minimumVolume tier2.
Proof.
  assert (Hin : baseTier ∈ mockFeeTiers) by left.
  assert (Hle : dec 5000 ≤ dec 50000) by (by vm_compute).
  assert (Hq : FeeTier.minimumVolume baseTier ≤ dec 5000) by (by vm_compute).
  assert (Hsel : calculateOptimalFeeTier (dec 5000) mockFeeTiers = Some baseTier)
    by (vm_compute; reflexivity).
  split; [by split_and!|].
  apply (optimal_tier_monotone (dec 5000) (dec 50000) mockFeeTiers baseTier Hle);
    [|exact Hsel].
  left. exists baseTier. by split_and!.
Defined.

(** C7 as stated fails on the fallback: with the base tier switched off, the
    volume 5000 reaches no active tier and the selector falls back to the first
    tier of the sorted list, VIP with [minimumVolume] 1000000; the larger
    volume 15000 selects TIER1 with [minimumVolume] 10000. *)
Lemma optimal_tier_fallback_not_monotone :
  dec 5000 ≤ dec 15000 ∧
  calculateOptimalFeeTier (dec 5000) tiersWithoutBase = Some vipTier ∧
  calculateOptimalFeeTier (dec 15000) tiersWithoutBase = Some tier1 ∧
  ¬ FeeTier.minimumVolume vipTier ≤ FeeTier.minimumVolume tier1.
Proof.
  split_and!; [by vm_compute|vm_compute; reflexivity..|].
  intros Hle. by vm_compute in Hle.
Qed.

Lemma distribution_bounded_and_ordered_witness :
  netFeeAmount (mockFeeResult (dec 0)) ≤ 0 ∧
  calculateCommissionDistribution defaultReferralConfig mockTrade (plainUser "trader")
    [plainUser "referrer"] (mockFeeResult (dec 0)) = [].
Proof.
  assert (Hzero : netFeeAmount (mockFeeResult (dec 0)) ≤ 0) by (by vm_compute).
  split; [exact Hzero|].
  apply (distribution_bounded_and_ordered defaultReferralConfig mockTrade
           (plainUser "trader") [plainUser "referrer"] (mockFeeResult (dec 0))).
  exact Hzero.
Defined.

(** * Further properties of the fee-rate resolver *)

Section fee_rate_further.
Variable referralConfig : CommissionConfig.
Implicit Types (user : User.t) (tradeVolume : Decimal) (tiers : list FeeTier.t).

(** The applied rate on the path of a non-waived account without custom
    rate: the lower of the best tier's rate and the discounted base rate. *)
Lemma appliedFeeRate_tier_path user tradeVolume tiers :
  User.isTeamMember user = false →
  User.isWaivedFees user = false →
  User.customFeeRate user = None →
  appliedFeeRate (calculateEffectiveFeeRate referralConfig user tradeVolume tiers)
  = let discountedBaseRate :=
      baseFeeRate referralConfig * (1 - User.feeDiscountRate user) in
    match firstQualifying (User.totalTradeVolume user) (activeTiersByPriority tiers) with
    | Some tier =>
        if bool_decide (FeeTier.feeRate tier < discountedBaseRate)
        then FeeTier.feeRate tier else discountedBaseRate
    | None => discountedBaseRate
    end.
Proof.
  intros Hteam Hwaived Hcustom.
  unfold calculateEffectiveFeeRate. rewrite Hteam, Hwaived, Hcustom. simpl.
  rewrite dec_1.
  destruct (firstQualifying _ _); [|done]. by case_bool_decide.
Qed.

Lemma fee_amounts_unfold user tradeVolume tiers :
  let result := calculateEffectiveFeeRate referralConfig user tradeVolume tiers in
  feeAmount result = tradeVolume * originalFeeRate result ∧
  netFeeAmount result = tradeVolume * appliedFeeRate result ∧
  rebateAmount result = feeAmount result - netFeeAmount result.
Proof.
  cbv zeta. unfold calculateEffectiveFeeRate.
  destruct (User.isTeamMember user || User.isWaivedFees user).
  { simpl. rewrite dec_0. split_and!; ring. }
  destruct (User.customFeeRate user) as [custom|].
  { simpl. rewrite dec_0. split_and!; ring. }
  simpl. destruct (firstQualifying _ _); [case_bool_decide|]; done.
Qed.


(** X2. [tierUsed] is ['WAIVED'], ['CUSTOM'], ['BASE'] or the name of an
    active tier of the catalog that the account's volume reaches and whose
    rate is the applied rate; and the discount flag is raised only on the
    ['BASE'] path of an account with a positive [feeDiscountRate] that is
    neither waived nor on a custom rate. *)
Theorem tierUsed_and_discount_flag user tradeVolume tiers :
  let result := calculateEffectiveFeeRate referralConfig user tradeVolume tiers in
  (tierUsed result = "WAIVED"%string ∨
   tierUsed result = "CUSTOM"%string ∨
   tierUsed result = "BASE"%string ∨
   ∃ tier, tier ∈ tiers ∧ FeeTier.isActive tier = true ∧
           FeeTier.minimumVolume tier ≤ User.totalTradeVolume user ∧
           tierUsed result = FeeTier.name tier ∧
           appliedFeeRate result = FeeTier.feeRate tier) ∧
  (discountApplied result = true →
   tierUsed result = "BASE"%string ∧
   0 < User.feeDiscountRate user ∧
   User.isTeamMember user = false ∧ User.isWaivedFees user = false ∧
   User.customFeeRate user = None).
Proof.
  cbv zeta. unfold calculateEffectiveFeeRate.
  destruct (User.isTeamMember user) eqn:Hteam; simpl; [split; [by left|done]|].
  destruct (User.isWaivedFees user) eqn:Hwaived; simpl; [split; [by left|done]|].
  destruct (User.customFeeRate user) as [custom|]; simpl;
    [split; [by right; left|done]|].
  rewrite dec_0.
  destruct (firstQualifying _ _) as [best|] eqn:Hbest.
  - case_bool_decide as Hlt; simpl.
    + apply bestTier_highest_priority in Hbest as (Hin & Hact & Hq & _).
      split; [|done]. do 3 right. by exists best.
    + split; [by right; right; left|]. by intros ?%bool_decide_eq_true.
  - simpl. split; [by right; right; left|]. by intros ?%bool_decide_eq_true.
Qed.


(** X4. With a non-negative base rate, a larger [feeDiscountRate] never
    raises the applied rate, nor the net fee of a non-negative trade value:
    for two non-waived accounts without custom rate and with the same
    [totalTradeVolume], the one with the larger discount pays at most what the
    other pays. *)
Theorem larger_discount_never_costs_more
    (user1 user2 : User.t) tradeVolume tiers :
  0 ≤ baseFeeRate referralConfig →
  User.isTeamMember user1 = false → User.isWaivedFees user1 = false →
  User.customFeeRate user1 = None →
  User.isTeamMember user2 = false → User.isWaivedFees user2 = false →
  User.customFeeRate user2 = None →
  User.totalTradeVolume user1 = User.totalTradeVolume user2 →
  User.feeDiscountRate user1 ≤ User.feeDiscountRate user2 →
  0 ≤ tradeVolume →
  let result1 := calculateEffectiveFeeRate referralConfig user1 tradeVolume tiers in
  let result2 := calculateEffectiveFeeRate referralConfig user2 tradeVolume tiers in
  appliedFeeRate result2 ≤ appliedFeeRate result1 ∧
  netFeeAmount result2 ≤ netFeeAmount result1.
Proof.
  intros Hbase Ht1 Hw1 Hc1 Ht2 Hw2 Hc2 Hvol Hdisc Htv. cbv zeta.
  assert (Hrate :
    appliedFeeRate (calculateEffectiveFeeRate referralConfig user2 tradeVolume tiers)
    ≤ appliedFeeRate (calculateEffectiveFeeRate referralConfig user1 tradeVolume tiers)).
  { rewrite !appliedFeeRate_tier_path by done. cbv zeta. rewrite Hvol.
    assert (Hdbr : baseFeeRate referralConfig * (1 - User.feeDiscountRate user2)
                   ≤ baseFeeRate referralConfig * (1 - User.feeDiscountRate user1)).
    { apply Qcmult_le_mono_nonneg_l; [done|].
      unfold Qcminus. apply Qcplus_le_compat; [apply Qcle_refl|].
      by apply Qcopp_le_compat. }
    destruct (firstQualifying _ _) as [best|]; [|done].
    repeat case_bool_decide.
    - apply Qcle_refl.
    - by apply Qclt_le_weak, Qclt_le_trans with
        (baseFeeRate referralConfig * (1 - User.feeDiscountRate user2)).
    - by apply Qcnot_lt_le.
    - done. }
  split; [done|].
  destruct (fee_amounts_unfold user1 tradeVolume tiers) as (_ & -> & _).
  destruct (fee_amounts_unfold user2 tradeVolume tiers) as (_ & -> & _).
  by apply Qcmult_le_mono_nonneg_l.
Qed.

(** The sorted list of active tiers depends on the catalog only through its
    active tiers when their priorities are pairwise distinct. *)
Lemma activeTiersByPriority_perm tiers1 tiers2 :
  filter (λ tier, FeeTier.isActive tier = true) tiers1
    ≡ₚ filter (λ tier, FeeTier.isActive tier = true) tiers2 →
  (∀ a b, a ∈ tiers1 → b ∈ tiers1 →
          FeeTier.isActive a = true → FeeTier.isActive b = true →
          FeeTier.priority a = FeeTier.priority b → a = b) →
  activeTiersByPriority tiers1 = activeTiersByPriority tiers2.
Proof.
  intros Hperm Hdistinct.
  assert (Hsame : activeTiersByPriority tiers1 ≡ₚ activeTiersByPriority tiers2).
  { unfold activeTiersByPriority. by rewrite !sortByPriorityDesc_perm. }
  apply (StronglySorted_unique_strong higherFirst);
    [|apply sortByPriorityDesc_sorted..|done].
  intros a b Ha Hb Hab Hba.
  rewrite <-Hsame in Hb.
  apply elem_of_activeTiersByPriority in Ha as [? ?].
  apply elem_of_activeTiersByPriority in Hb as [? ?].
  apply Hdistinct; [done..|]. unfold higherFirst in *. lia.
Qed.

(** X5. The catalog is a set: when the active tiers have pairwise distinct
    priorities, two catalogs with the same active tiers, in whatever order
    and with whatever inactive entries, give the same fee result and the same
    optimal tier. *)
Theorem catalog_order_and_inactive_tiers_irrelevant
    user tradeVolume (volume : Decimal) tiers1 tiers2 :
  filter (λ tier, FeeTier.isActive tier = true) tiers1
    ≡ₚ filter (λ tier, FeeTier.isActive tier = true) tiers2 →
  (∀ a b, a ∈ tiers1 → b ∈ tiers1 →
          FeeTier.isActive a = true → FeeTier.isActive b = true →
          FeeTier.priority a = FeeTier.priority b → a = b) →
  calculateEffectiveFeeRate referralConfig user tradeVolume tiers1
  = calculateEffectiveFeeRate referralConfig user tradeVolume tiers2 ∧
  calculateOptimalFeeTier volume tiers1 = calculateOptimalFeeTier volume tiers2.
Proof.
  intros Hperm Hdistinct.
  unfold calculateEffectiveFeeRate, calculateOptimalFeeTier.
  by rewrite (activeTiersByPriority_perm tiers1 tiers2).
Qed.

(** X6. The resolver never charges more than the rate of the tier that
    [calculateOptimalFeeTier] selects for the account's volume, provided the
    volume reaches that tier (the selection is no fallback). *)
Theorem applied_rate_at_most_optimal_tier_rate user tradeVolume tiers
    (optimalTier : FeeTier.t) :
  User.isTeamMember user = false →
  User.isWaivedFees user = false →
  User.customFeeRate user = None →
  calculateOptimalFeeTier (User.totalTradeVolume user) tiers = Some optimalTier →
  FeeTier.minimumVolume optimalTier ≤ User.totalTradeVolume user →
  appliedFeeRate (calculateEffectiveFeeRate referralConfig user tradeVolume tiers)
  ≤ FeeTier.feeRate optimalTier.
Proof.
  intros Hteam Hwaived Hcustom Hopt Hq.
  rewrite appliedFeeRate_tier_path by done. cbv zeta.
  unfold calculateOptimalFeeTier in Hopt.
  destruct (firstQualifying _ _) as [best|] eqn:Hbest.
  - injection Hopt as ->. case_bool_decide; [apply Qcle_refl|by apply Qcnot_lt_le].
  - apply firstQualifying_None in Hbest. rewrite Forall_forall in Hbest.
    destruct (Hbest optimalTier); [|done].
    destruct (List.find _ _) as [named|] eqn:Hfind.
    + injection Hopt as ->. apply find_some in Hfind as [Hin _].
      by apply list_elem_of_In.
    + destruct (activeTiersByPriority tiers) as [|first rest]; [done|].
      injection Hopt as ->. left.
Qed.
End fee_rate_further.

(** * Further properties of the validator and the distributor *)

Section chain_further.
Variable referralConfig : CommissionConfig.
Implicit Types (trade : Trade.t) (trader : User.t) (chain : list User.t).
Implicit Types (fee : FeeCalculationResult) (d : CommissionDistribution).

(** What an accepted chain is. *)
Lemma validateReferralChain_accepts (userId : string) chain :
  validateReferralChain userId chain = true ↔
  ¬ userId ∈ (User.id <$> chain) ∧ NoDup (User.id <$> chain) ∧ (length chain ≤ 3)%nat.
Proof.
  assert (Hself : existsb (λ user, bool_decide (User.id user = userId)) chain = true
                  ↔ userId ∈ (User.id <$> chain)).
  { rewrite existsb_exists, list_elem_of_fmap.
    setoid_rewrite bool_decide_eq_true. setoid_rewrite <-list_elem_of_In.
    split; intros (user & ? & ?); by exists user. }
  assert (Hdup : hasRepeatedId ∅ chain = true ↔ ¬ NoDup (User.id <$> chain)).
  { rewrite hasRepeatedId_spec. split; [|by right].
    intros [(id & _ & []%elem_of_empty) | Hdup]. done. }
  unfold validateReferralChain.
  destruct (existsb _ _).
  { split; [done|]. intros (Hnot & _). destruct Hnot. by apply Hself. }
  destruct (hasRepeatedId _ _).
  { split; [done|]. intros (_ & Hnodup & _). by destruct (proj1 Hdup eq_refl). }
  change (maxReferralDepth businessRules) with 3%nat.
  case_bool_decide.
  - split; [done|]. intros (_ & _ & ?). lia.
  - split; [|done]. intros _. split_and!.
    + intros Hin. apply Hself in Hin. done.
    + destruct (decide (NoDup (User.id <$> chain))) as [|Hn]; [done|].
      apply Hdup in Hn. done.
    + lia.
Qed.

(** X7. Only the first three entries of the chain matter: referrers beyond
    the maximum depth never earn and never change what the others earn. *)
Theorem distribution_reads_first_three_referrers trade trader chain fee :
  calculateCommissionDistribution referralConfig trade trader chain fee
  = calculateCommissionDistribution referralConfig trade trader (take 3 chain) fee.
Proof.
  rewrite !calculateCommissionDistribution_omap.
  case_bool_decide; [done|].
  rewrite length_take.
  replace ((3 `min` length chain) `min` 3)%nat with (length chain `min` 3)%nat by lia.
  apply list_omap_ext, Forall2_same_length_lookup. split; [done|].
  intros i N N' [-> Hi]%lookup_seq [-> _]%lookup_seq.
  unfold distributionAt, distributionStep.
  rewrite lookup_take_lt by lia. done.
Qed.

(** X8. On a chain that [validateReferralChain] accepts for the trader, no
    account earns twice from one trade and the trader does not earn from the
    own trade. *)
Theorem accepted_chain_pays_each_account_once trade trader chain fee :
  validateReferralChain (User.id trader) chain = true →
  let out := calculateCommissionDistribution referralConfig trade trader chain fee in
  NoDup (earnerId <$> out) ∧ ¬ User.id trader ∈ (earnerId <$> out).
Proof.
  intros (Hself & Hnodup & _)%validateReferralChain_accepts. cbv zeta.
  assert (Hearner : ∀ d,
    d ∈ calculateCommissionDistribution referralConfig trade trader chain fee →
    (1 ≤ level d)%nat ∧
    (User.id <$> chain) !! (level d - 1)%nat = Some (earnerId d) ∧
    distributionAt referralConfig chain (netFeeAmount fee) (level d) = Some d).
  { intros d (_ & Hrange & Hat)%elem_of_distribution.
    split; [lia|]. split; [|done].
    apply distributionAt_Some in Hat as (referrer & Hlook & _ & _ & ->).
    simpl in *. by rewrite list_lookup_fmap, Hlook. }
  split.
  - apply NoDup_fmap_2_strong.
    + intros d1 d2 (Hl1 & Hid1 & Hat1)%Hearner (Hl2 & Hid2 & Hat2)%Hearner Heq.
      rewrite Heq in Hid1.
      pose proof (NoDup_lookup _ _ _ _ Hnodup Hid1 Hid2) as Hpos.
      assert (level d1 = level d2) as Hlevel by lia.
      rewrite Hlevel in Hat1. congruence.
    + rewrite calculateCommissionDistribution_omap.
      case_bool_decide; [constructor|].
      eapply NoDup_fmap_1 with (f := level).
      destruct (distribution_levels_sorted referralConfig chain (netFeeAmount fee)
                  (length chain `min` 3)) as [Hsorted _].
      clear -Hsorted. induction Hsorted as [|N levels _ IH Hall]; constructor; [|done].
      intros Hin. rewrite Forall_forall in Hall. apply Hall in Hin. lia.
  - intros (d & Heq & (_ & Hid & _)%Hearner)%list_elem_of_fmap.
    apply Hself. rewrite Heq. by eapply list_elem_of_lookup_2.
Qed.



(** X10. A trade of a waived account (team member or waived fees), and a
    trade of value zero of any account, generate no commission, whatever the
    referral chain is: the fee result the resolver hands to the distributor
    has no positive net fee. *)
Theorem no_fee_no_commission trade trader chain (tradeVolume : Decimal)
    (tiers : list FeeTier.t) :
  User.isTeamMember trader = true ∨ User.isWaivedFees trader = true
    ∨ tradeVolume = 0 →
  calculateCommissionDistribution referralConfig trade trader chain
    (calculateEffectiveFeeRate referralConfig trader tradeVolume tiers)
  = [].
Proof.
  intros Hcase.
  assert (netFeeAmount
            (calculateEffectiveFeeRate referralConfig trader tradeVolume tiers) = 0)
    as Hnet.
  { destruct Hcase as [Hteam | [Hwaived | ->]].
    - unfold calculateEffectiveFeeRate. by rewrite Hteam.
    - unfold calculateEffectiveFeeRate. rewrite Hwaived, orb_true_r. done.
    - destruct (fee_amounts_unfold referralConfig trader 0 tiers) as (_ & -> & _).
      apply Qcmult_0_l. }
  unfold calculateCommissionDistribution. rewrite Hnet. done.
Qed.

(** X11. A larger net fee keeps every earner: each level that earns on a
    positive net fee earns, at the same rate and for the same account, at
    least as much on any larger net fee. *)
Theorem larger_fee_keeps_every_earner trade trader chain
    (fee fee' : FeeCalculationResult) d :
  0 < netFeeAmount fee →
  netFeeAmount fee ≤ netFeeAmount fee' →
  d ∈ calculateCommissionDistribution referralConfig trade trader chain fee →
  ∃ d', d' ∈ calculateCommissionDistribution referralConfig trade trader chain fee' ∧
        level d' = level d ∧ earnerId d' = earnerId d ∧ rate d' = rate d ∧
        amount d ≤ amount d'.
Proof.
  intros Hpos Hle (_ & Hrange & (referrer & Hlook & Hteam & Hmin & Hd)
    %distributionAt_Some)%elem_of_distribution.
  set (r := getCommissionRate referralConfig referrer (level d)) in *.
  assert (Hr : 0 ≤ r).
  { destruct (Qclt_le_dec r 0) as [Hneg|]; [|done].
    assert (netFeeAmount fee * r ≤ 0).
    { rewrite <-(Qcmult_0_r (netFeeAmount fee)).
      apply Qcmult_le_mono_nonneg_l; by apply Qclt_le_weak. }
    exfalso.
    apply (Qclt_not_le 0 (minimumCommissionAmount businessRules)); [done|].
    by etrans. }
  assert (Hamount : netFeeAmount fee * r ≤ netFeeAmount fee' * r)
    by (by apply Qcmult_le_compat_r).
  exists {| level := level d; earnerId := User.id referrer;
            earnerEmail := User.email referrer;
            amount := netFeeAmount fee' * r; rate := r; commissionId := "" |}.
  assert (earnerId d = User.id referrer) as -> by (by rewrite Hd).
  assert (rate d = r) as -> by (by rewrite Hd).
  assert (amount d = netFeeAmount fee * r) as -> by (by rewrite Hd).
  simpl. split_and!; [|done..].
  apply elem_of_distribution. simpl. split_and!; [|lia..|].
  - by eapply Qclt_le_trans.
  - apply distributionAt_Some. exists referrer. split_and!; [done..| |done].
    by etrans.
Qed.
End chain_further.

Section validation_further.
Implicit Types (userId : string) (chain : list User.t).

(** X12. The verdict of [validateReferralChain] does not depend on the order
    of the chain. *)
Theorem validateReferralChain_order_irrelevant userId chain chain' :
  chain ≡ₚ chain' →
  validateReferralChain userId chain = validateReferralChain userId chain'.
Proof.
  intros Hperm.
  assert (Hiff : validateReferralChain userId chain = true
                 ↔ validateReferralChain userId chain' = true).
  { rewrite !validateReferralChain_accepts. by rewrite Hperm. }
  destruct (validateReferralChain userId chain),
           (validateReferralChain userId chain'); try done.
  - symmetry. by apply Hiff.
  - by apply Hiff.
Qed.

(** X13. Every part of an accepted chain is accepted: dropping referrers
    from a chain that is valid for a candidate leaves it valid. *)
Theorem validateReferralChain_sublist userId chain chain' :
  chain' `sublist_of` chain →
  validateReferralChain userId chain = true →
  validateReferralChain userId chain' = true.
Proof.
  intros Hsub (Hself & Hnodup & Hlen)%validateReferralChain_accepts.
  apply validateReferralChain_accepts.
  assert (Hids : (User.id <$> chain') `sublist_of` (User.id <$> chain))
    by (by apply fmap_sublist).
  split_and!.
  - intros Hin. apply Hself. by eapply sublist_submseteq, elem_of_submseteq in Hids.
  - by eapply sublist_NoDup.
  - apply sublist_length in Hsub. lia.
Qed.
End validation_further.

Section tier_selection_further.
Implicit Types (tier : FeeTier.t) (tiers : list FeeTier.t) (volume : Decimal).

(** X14. [calculateOptimalFeeTier] never answers with an inactive tier or
    with a tier outside the catalog, and it has no answer ([undefined])
    exactly when the catalog has no active tier. *)
Theorem optimal_tier_is_an_active_tier volume tiers :
  (∀ tier, calculateOptimalFeeTier volume tiers = Some tier →
           tier ∈ tiers ∧ FeeTier.isActive tier = true) ∧
  (calculateOptimalFeeTier volume tiers = None ↔
   ∀ tier, tier ∈ tiers → FeeTier.isActive tier = false).
Proof.
  split.
  - intros tier Hsel. apply elem_of_activeTiersByPriority.
    unfold calculateOptimalFeeTier in Hsel.
    destruct (firstQualifying _ _) as [best|] eqn:Hbest.
    + injection Hsel as ->.
      apply firstQualifying_Some in Hbest as (before & after & -> & _).
      apply elem_of_app. right. left.
    + destruct (List.find _ _) as [named|] eqn:Hfind.
      * injection Hsel as ->. apply find_some in Hfind as [Hin _].
        by apply list_elem_of_In.
      * destruct (activeTiersByPriority tiers) as [|first rest]; [done|].
        injection Hsel as ->. left.
  - split.
    + intros Hnone tier Hin.
      destruct (FeeTier.isActive tier) eqn:Hact; [|done].
      destruct (calculateOptimalFeeTier_total volume tiers) as [sel Hsel];
        [by exists tier|congruence].
    + intros Hinactive. unfold calculateOptimalFeeTier.
      assert (activeTiersByPriority tiers = []) as ->; [|done].
      destruct (activeTiersByPriority tiers) as [|first rest] eqn:Hactive; [done|].
      assert (Hin : first ∈ activeTiersByPriority tiers) by (rewrite Hactive; left).
      apply elem_of_activeTiersByPriority in Hin as [Hin Hact].
      rewrite (Hinactive first Hin) in Hact. done.
Qed.

(** X15. When the volume reaches some active tier, the selected tier is
    reached by the volume and no active tier that the volume reaches has a
    higher priority. *)
Theorem optimal_tier_has_highest_qualifying_priority volume tiers :
  (∃ tier, tier ∈ tiers ∧ FeeTier.isActive tier = true ∧
           FeeTier.minimumVolume tier ≤ volume) →
  ∃ selected,
    calculateOptimalFeeTier volume tiers = Some selected ∧
    FeeTier.minimumVolume selected ≤ volume ∧
    ∀ other, other ∈ tiers → FeeTier.isActive other = true →
             FeeTier.minimumVolume other ≤ volume →
             (FeeTier.priority other ≤ FeeTier.priority selected)%Z.
Proof.
  intros Hq.
  destruct (calculateOptimalFeeTier_qualifying volume tiers Hq) as [Heq [sel Hsel]].
  exists sel. split; [done|].
  rewrite Heq in Hsel.
  apply bestTier_highest_priority in Hsel as (_ & _ & ? & ?). done.
Qed.
End tier_selection_further.

(** * The network value *)

Section network_value.
Implicit Types (users : list User.t) (commissions : list Commission.t).

Lemma foldl_volume_acc (acc : Decimal) users :
  foldl (λ sum user, sum + User.totalTradeVolume user) acc users
  = acc + foldl (λ sum user, sum + User.totalTradeVolume user) 0 users.
Proof.
  revert acc. induction users as [|user users IH]; intros acc; simpl.
  - ring.
  - rewrite IH, (IH (0 + _)). ring.
Qed.

Lemma foldl_volume_nonneg users :
  Forall (λ user, 0 ≤ User.totalTradeVolume user) users →
  0 ≤ foldl (λ sum user, sum + User.totalTradeVolume user) 0 users.
Proof.
  induction 1 as [|user users Huser _ IH]; simpl; [done|].
  rewrite foldl_volume_acc. apply Qcplus_nonneg_nonneg; [|done].
  by rewrite Qcplus_0_l.
Qed.

Lemma sumAmounts_nonneg commissions :
  Forall (λ commission, 0 ≤ Commission.amount commission) commissions →
  0 ≤ sumAmounts commissions.
Proof.
  induction 1 as [|c cs Hc _ IH]; [done|].
  rewrite sumAmounts_cons. by apply Qcplus_nonneg_nonneg.
Qed.

(** X16. [calculateNetworkValue] never divides by a non-positive volume: when
    the total volume of the network is not positive (an empty network, for
    one) the average commission rate is 0.  With non-negative volumes and
    amounts all three figures are non-negative, and the size is the number of
    users. *)
Theorem network_value_guarded users commissions :
  let value := calculateNetworkValue users commissions in
  networkSize value = length users ∧
  (¬ 0 < totalVolume value → averageCommissionRate value = 0) ∧
  (Forall (λ user, 0 ≤ User.totalTradeVolume user) users →
   Forall (λ commission, 0 ≤ Commission.amount commission) commissions →
   0 ≤ totalVolume value ∧ 0 ≤ totalCommissions value ∧
   0 ≤ averageCommissionRate value).
Proof.
  cbv zeta. unfold calculateNetworkValue. simpl. rewrite dec_0.
  split_and!; [done| |].
  - intros Hzero. by rewrite bool_decide_eq_false_2.
  - intros Husers Hcommissions.
    pose proof (foldl_volume_nonneg users Husers) as Hvolume.
    pose proof (sumAmounts_nonneg commissions Hcommissions) as Hsum.
    unfold sumAmounts in Hsum. rewrite dec_0 in Hsum.
    split_and!; [done..|].
    case_bool_decide as Hpos; [|done].
    apply Qcmult_nonneg; [done|]. by apply Qclt_le_weak, Qcinv_pos.
Qed.
End network_value.

(** * The grouped totals of the earnings aggregator *)

Section earnings_groups.
Implicit Types (commission : Commission.t) (commissions : list Commission.t).
Implicit Types (startDate endDate : option Z).









(** X20. An inverted window keeps nothing: when [endDate] lies before
    [startDate] the breakdown is the one of no commissions at all, with all
    totals and all three levels at zero, no token and no day. *)
Theorem inverted_window_is_empty commissions (s e : Z) :
  (e < s)%Z →
  let result := calculateEarningsBreakdown commissions (Some s) (Some e) in
  result = calculateEarningsBreakdown [] None None ∧
  totalEarnings result = 0 ∧ claimedEarnings result = 0 ∧
  unclaimedEarnings result = 0 ∧
  earningsByLevel result = {[ 1%Z := 0; 2%Z := 0; 3%Z := 0 ]} ∧
  earningsByToken result = ∅ ∧ earningsByPeriod result = [].
Proof.
  intros Hinv. cbv zeta.
  assert (calculateEarningsBreakdown commissions (Some s) (Some e)
          = calculateEarningsBreakdown [] None None) as ->.
  { unfold calculateEarningsBreakdown.
    assert (filterByDateRange commissions (Some s) (Some e) = []) as ->; [|done].
    rewrite filterByDateRange_window.
    induction commissions as [|c cs IH]; [done|].
    rewrite filter_cons, IH. rewrite decide_False; [done|].
    unfold withinWindow. simpl. lia. }
  split; [done|].
  unfold calculateEarningsBreakdown. simpl.
  split_and!; done.
Qed.
End earnings_groups.

(** * The referral chain read from the user table *)

Section referral_chain.
Variable db : gmap string User.t.
Implicit Types (userId : string) (current : option string) (depth : nat).

Lemma truthy_idemp current : truthy (truthy current) = truthy current.
Proof. by destruct current as [[|? ?]|]. Qed.

(** One iteration: it pushes the referrer of the current user, if both rows
    are found, and goes on from the id that this referrer names. *)
Lemma referralChainLoop_S depth current :
  referralChainLoop db (S depth) current
  = match truthy current ≫= λ id, db !! id ≫= referrerOf db with
    | Some referrer =>
        referrer :: referralChainLoop db depth (truthy (User.referrerId referrer))
    | None => []
    end.
Proof.
  simpl. destruct (truthy current) as [id|]; simpl; [|done].
  destruct (db !! id) as [user|]; simpl; [|done].
  unfold referrerOf.
  destruct (truthy (User.referrerId user)) as [rid|]; simpl; [|done].
  by destruct (db !! rid).
Qed.

Lemma referralChainLoop_head depth current :
  head (referralChainLoop db (S depth) current)
  = truthy current ≫= λ id, db !! id ≫= referrerOf db.
Proof. rewrite referralChainLoop_S. by destruct (_ ≫= _). Qed.

Lemma referralChainLoop_length depth current :
  (length (referralChainLoop db depth current) ≤ depth)%nat.
Proof.
  revert current. induction depth as [|depth IH]; intros current; [done|].
  rewrite referralChainLoop_S.
  destruct (_ ≫= _) as [referrer|]; simpl; [|lia].
  specialize (IH (truthy (User.referrerId referrer))). lia.
Qed.

Lemma referralChainLoop_rows depth current (referrer : User.t) :
  referrer ∈ referralChainLoop db depth current →
  ∃ id, db !! id = Some referrer.
Proof.
  revert current. induction depth as [|depth IH]; intros current.
  { by intros ?%elem_of_nil. }
  rewrite referralChainLoop_S.
  destruct (_ ≫= _) as [first|] eqn:Hfirst; [|by intros ?%elem_of_nil].
  intros [->|Hin]%elem_of_cons; [|by eapply IH].
  destruct (truthy current) as [id|]; simpl in Hfirst; [|done].
  destruct (db !! id) as [user|]; simpl in Hfirst; [|done].
  unfold referrerOf in Hfirst.
  destruct (truthy (User.referrerId user)) as [rid|]; simpl in Hfirst; [|done].
  by exists rid.
Qed.

Lemma referralChainLoop_next depth current (k : nat) (referrer : User.t) :
  referralChainLoop db depth current !! k = Some referrer →
  referralChainLoop db depth current !! S k
  = if decide (S k < depth)%nat then grandReferrerOf db referrer else None.
Proof.
  revert current k. induction depth as [|depth IH]; intros current k; [done|].
  rewrite referralChainLoop_S.
  destruct (_ ≫= _) as [first|]; [|done].
  destruct k as [|k]; simpl.
  - intros [= ->].
    destruct depth as [|depth].
    + by rewrite decide_False by lia.
    + rewrite decide_True by lia.
      rewrite <-head_lookup, referralChainLoop_head, truthy_idemp.
      unfold grandReferrerOf, referrerOf.
      by destruct (truthy (User.referrerId referrer)).
  - intros Hk. rewrite (IH _ _ Hk).
    destruct (decide (S k < depth)%nat), (decide (S (S k) < S depth)%nat);
      done || lia.
Qed.

(** X21. The chain that [getReferralChain] returns has at most three
    entries, each a row of the user table, and starts with the referrer of
    the user; it is empty when the id is empty or unknown, when the user names
    no referrer, or when the named referrer is not in the table. *)
Theorem getReferralChain_bounded userId :
  (length (getReferralChain db userId) ≤ 3)%nat ∧
  (∀ referrer, referrer ∈ getReferralChain db userId →
               ∃ id, db !! id = Some referrer) ∧
  head (getReferralChain db userId)
  = truthy (Some userId) ≫= λ id, db !! id ≫= referrerOf db.
Proof.
  unfold getReferralChain. split_and!.
  - apply referralChainLoop_length.
  - intros referrer. apply referralChainLoop_rows.
  - apply referralChainLoop_head.
Qed.

(** X22. Each iteration of [getReferralChain] climbs two links: the entry
    after a referrer [r] is the referrer of the referrer of [r] (when that row
    exists and the depth allows a further entry), so the direct referrer of
    [r] is passed over. *)
Theorem getReferralChain_climbs_two_links userId (k : nat) (referrer : User.t) :
  getReferralChain db userId !! k = Some referrer →
  getReferralChain db userId !! S k
  = if decide (S k < 3)%nat then grandReferrerOf db referrer else None.
Proof. apply referralChainLoop_next. Qed.
End referral_chain.

(** * The fee-tier update of the service *)

Section fee_tier_update.
Implicit Types (db : gmap string User.t) (feeTiers : list FeeTier.t).
Implicit Types (userId : string).

(** X23. [updateUserFeeTier] throws [USER_NOT_FOUND] for an unknown user and
    breaks with a [TypeError] when the user exists but no tier is active.
    When it returns, [newTier] is the name of the optimal tier for the user's
    volume whether or not an update was made, [updated] tells whether that name
    differs from the user's current tier, and a write of the new name is
    requested exactly when [updated] is true. *)
Theorem updateUserFeeTier_report db feeTiers userId :
  (db !! userId = None →
   updateUserFeeTier db feeTiers userId = Threw (ApiError "USER_NOT_FOUND")) ∧
  (∀ user, db !! userId = Some user →
     (∀ tier, tier ∈ feeTiers → FeeTier.isActive tier = false) →
     updateUserFeeTier db feeTiers userId = Threw TypeError) ∧
  (∀ report write,
     updateUserFeeTier db feeTiers userId = Returned report write →
     ∃ user optimalTier,
       db !! userId = Some user ∧
       calculateOptimalFeeTier (User.totalTradeVolume user) feeTiers
         = Some optimalTier ∧
       oldTier report = User.feeTier user ∧
       newTier report = FeeTier.name optimalTier ∧
       (updated report = true ↔ newTier report ≠ oldTier report) ∧
       write = if updated report then Some (newTier report) else None).
Proof.
  unfold updateUserFeeTier. split_and!.
  - by intros ->.
  - intros user -> Hinactive.
    assert (calculateOptimalFeeTier (User.totalTradeVolume user) feeTiers = None)
      as ->; [|done].
    unfold calculateOptimalFeeTier.
    assert (activeTiersByPriority feeTiers = []) as ->; [|done].
    destruct (activeTiersByPriority feeTiers) as [|first rest] eqn:Hactive; [done|].
    assert (Hin : first ∈ activeTiersByPriority feeTiers) by (rewrite Hactive; left).
    apply elem_of_activeTiersByPriority in Hin as [Hin Hact].
    rewrite (Hinactive first Hin) in Hact. done.
  - intros report write.
    destruct (db !! userId) as [user|]; [|done].
    destruct (calculateOptimalFeeTier _ _) as [optimalTier|] eqn:Hopt; [|done].
    case_bool_decide as Hname; intros [= <- <-]; exists user, optimalTier; simpl.
    + split_and!; [done..| |done]. by split.
    + split_and!; [done..| |done]. split; [done|]. by intros [].
Qed.

(** X24. The update settles: once the requested write has been applied (the
    user's [feeTier] is the reported [newTier] and the volume is unchanged),
    a second call reports no update and requests no write. *)
Theorem updateUserFeeTier_settles db db' feeTiers userId
    (user user' : User.t) report write :
  db !! userId = Some user →
  updateUserFeeTier db feeTiers userId = Returned report write →
  db' !! userId = Some user' →
  User.totalTradeVolume user' = User.totalTradeVolume user →
  User.feeTier user' = newTier report →
  updateUserFeeTier db' feeTiers userId
  = Returned {| oldTier := newTier report; newTier := newTier report;
                updated := false |} None.
Proof.
  unfold updateUserFeeTier. intros -> Hfirst -> Hvolume Htier.
  rewrite Hvolume.
  destruct (calculateOptimalFeeTier _ _) as [optimalTier|]; [|done].
  assert (newTier report = FeeTier.name optimalTier) as Hnew.
  { case_bool_decide as Hname; injection Hfirst as <- _; simpl; done. }
  rewrite bool_decide_eq_false_2 by (rewrite Htier, Hnew; by intros []).
  by rewrite Htier.
Qed.
End fee_tier_update.

(** * The further properties at sample data *)

Lemma tierUsed_and_discount_flag_witness :
  let user := createMockUser "user-1" "test@example.com" (frac 10 100) (dec 0)
                false None in
  let result := calculateEffectiveFeeRate defaultReferralConfig user (dec 1000)
                  mockFeeTiers in
  discountApplied result = true ∧
  tierUsed result = "BASE"%string ∧ 0 < User.feeDiscountRate user.
Proof.
  cbv zeta.
  assert (Hflag : discountApplied
            (calculateEffectiveFeeRate defaultReferralConfig
               (createMockUser "user-1" "test@example.com" (frac 10 100) (dec 0)
                  false None)
               (dec 1000) mockFeeTiers) = true) by (vm_compute; reflexivity).
  split; [exact Hflag|].
  pose proof (tierUsed_and_discount_flag defaultReferralConfig
                (createMockUser "user-1" "test@example.com" (frac 10 100) (dec 0)
                   false None)
                (dec 1000) mockFeeTiers) as Hspec.
  cbv zeta in Hspec. destruct Hspec as [_ Hdiscount].
  destruct (Hdiscount Hflag) as (Hbase & Hpos & _). by split.
Defined.


Lemma larger_discount_never_costs_more_witness :
  let user1 := plainUser "user-1" in
  let user2 := createMockUser "user-2" "test@example.com" (frac 10 100) (dec 0)
                 false None in
  (0 ≤ baseFeeRate defaultReferralConfig ∧
   User.totalTradeVolume user1 = User.totalTradeVolume user2 ∧
   User.feeDiscountRate user1 ≤ User.feeDiscountRate user2 ∧
   0 ≤ dec 1000) ∧
  appliedFeeRate
    (calculateEffectiveFeeRate defaultReferralConfig user2 (dec 1000) mockFeeTiers)
  ≤ appliedFeeRate
      (calculateEffectiveFeeRate defaultReferralConfig user1 (dec 1000) mockFeeTiers) ∧
  netFeeAmount
    (calculateEffectiveFeeRate defaultReferralConfig user2 (dec 1000) mockFeeTiers)
  ≤ netFeeAmount
      (calculateEffectiveFeeRate defaultReferralConfig user1 (dec 1000) mockFeeTiers).
Proof.
  cbv zeta. split; [split_and!; [by vm_compute|reflexivity|by vm_compute..]|].
  apply (larger_discount_never_costs_more defaultReferralConfig
           (plainUser "user-1")
           (createMockUser "user-2" "test@example.com" (frac 10 100) (dec 0)
              false None)
           (dec 1000) mockFeeTiers);
    [by vm_compute|reflexivity..|by vm_compute|by vm_compute].
Defined.

Lemma catalog_order_and_inactive_tiers_irrelevant_witness :
  let shuffled := [vipTier; mockTier "9" "OLD" (dec 0) (frac 2 100) 0 false;
                   baseTier; tier1] in
  filter (λ tier, FeeTier.isActive tier = true) mockFeeTiers
    ≡ₚ filter (λ tier, FeeTier.isActive tier = true) shuffled ∧
  calculateEffectiveFeeRate defaultReferralConfig (plainUser "user-1") (dec 1000)
    mockFeeTiers
  = calculateEffectiveFeeRate defaultReferralConfig (plainUser "user-1") (dec 1000)
      shuffled ∧
  calculateOptimalFeeTier (dec 50000) mockFeeTiers
  = calculateOptimalFeeTier (dec 50000) shuffled.
Proof.
  cbv zeta.
  assert (Hperm :
    filter (λ tier, FeeTier.isActive tier = true) mockFeeTiers
    ≡ₚ filter (λ tier, FeeTier.isActive tier = true)
         [vipTier; mockTier "9" "OLD" (dec 0) (frac 2 100) 0 false; baseTier; tier1]).
  { change ([baseTier; tier1; vipTier] ≡ₚ [vipTier; baseTier; tier1]).
    apply (Permutation_app_comm [baseTier; tier1] [vipTier]). }
  split; [exact Hperm|].
  apply (catalog_order_and_inactive_tiers_irrelevant defaultReferralConfig
           (plainUser "user-1") (dec 1000) (dec 50000) mockFeeTiers _ Hperm).
  intros a b Ha Hb _ _ Hpriority.
  unfold mockFeeTiers in Ha, Hb.
  repeat (apply elem_of_cons in Ha as [->|Ha]);
    repeat (apply elem_of_cons in Hb as [->|Hb]);
    try (by apply elem_of_nil in Ha); try (by apply elem_of_nil in Hb);
    done.
Defined.

Lemma applied_rate_at_most_optimal_tier_rate_witness :
  let user := createMockUser "user-1" "test@example.com" (frac 10 100) (dec 15000)
                false None in
  (calculateOptimalFeeTier (User.totalTradeVolume user) mockFeeTiers = Some tier1 ∧
   FeeTier.minimumVolume tier1 ≤ User.totalTradeVolume user) ∧
  appliedFeeRate
    (calculateEffectiveFeeRate defaultReferralConfig user (dec 1000) mockFeeTiers)
  ≤ FeeTier.feeRate tier1.
Proof.
  cbv zeta.
  assert (Hopt : calculateOptimalFeeTier (dec 15000) mockFeeTiers = Some tier1)
    by (vm_compute; reflexivity).
  split; [split; [exact Hopt|by vm_compute]|].
  apply (applied_rate_at_most_optimal_tier_rate defaultReferralConfig
           (createMockUser "user-1" "test@example.com" (frac 10 100) (dec 15000)
              false None)
           (dec 1000) mockFeeTiers tier1 eq_refl eq_refl eq_refl Hopt).
  by vm_compute.
Defined.

Lemma accepted_chain_pays_each_account_once_witness :
  let chain := [plainUser "level1"; plainUser "level2"; plainUser "level3"] in
  let out := calculateCommissionDistribution defaultReferralConfig mockTrade
               (plainUser "trader") chain (mockFeeResult (dec 450)) in
  validateReferralChain "trader" chain = true ∧
  NoDup (earnerId <$> out) ∧ ¬ "trader"%string ∈ (earnerId <$> out).
Proof.
  cbv zeta. split; [vm_compute; reflexivity|].
  apply (accepted_chain_pays_each_account_once defaultReferralConfig mockTrade
           (plainUser "trader")
           [plainUser "level1"; plainUser "level2"; plainUser "level3"]
           (mockFeeResult (dec 450))).
  vm_compute. reflexivity.
Defined.


Lemma no_fee_no_commission_witness :
  User.isTeamMember teamUser = true ∧
  calculateCommissionDistribution defaultReferralConfig mockTrade teamUser
    [plainUser "level1"; plainUser "level2"]
    (calculateEffectiveFeeRate defaultReferralConfig teamUser (dec 1000) mockFeeTiers)
  = [].
Proof.
  split; [reflexivity|].
  apply (no_fee_no_commission defaultReferralConfig mockTrade teamUser
           [plainUser "level1"; plainUser "level2"] (dec 1000) mockFeeTiers).
  left. reflexivity.
Defined.

Lemma larger_fee_keeps_every_earner_witness :
  let chain := [plainUser "level1"; plainUser "level2"; plainUser "level3"] in
  let d := {| level := 1; earnerId := "level1"; earnerEmail := "test@example.com";
              amount := dec 135; rate := frac 30 100; commissionId := "" |} in
  (0 < netFeeAmount (mockFeeResult (dec 450)) ∧
   netFeeAmount (mockFeeResult (dec 450)) ≤ netFeeAmount (mockFeeResult (dec 900)) ∧
   d ∈ calculateCommissionDistribution defaultReferralConfig mockTrade
         (plainUser "trader") chain (mockFeeResult (dec 450))) ∧
  ∃ d', d' ∈ calculateCommissionDistribution defaultReferralConfig mockTrade
               (plainUser "trader") chain (mockFeeResult (dec 900)) ∧
        level d' = level d ∧ earnerId d' = earnerId d ∧ rate d' = rate d ∧
        amount d ≤ amount d'.
Proof.
  cbv zeta.
  assert (Hin :
    {| level := 1; earnerId := "level1"; earnerEmail := "test@example.com";
       amount := dec 135; rate := frac 30 100; commissionId := "" |}
    ∈ calculateCommissionDistribution defaultReferralConfig mockTrade
        (plainUser "trader")
        [plainUser "level1"; plainUser "level2"; plainUser "level3"]
        (mockFeeResult (dec 450))) by compute_done.
  split; [split_and!; [by vm_compute..|exact Hin]|].
  apply (larger_fee_keeps_every_earner defaultReferralConfig mockTrade
           (plainUser "trader")
           [plainUser "level1"; plainUser "level2"; plainUser "level3"]
           (mockFeeResult (dec 450)) (mockFeeResult (dec 900)) _);
    [by vm_compute..|exact Hin].
Defined.

Lemma validateReferralChain_order_irrelevant_witness :
  [plainUser "user1"; plainUser "user2"] ≡ₚ [plainUser "user2"; plainUser "user1"] ∧
  validateReferralChain "newuser" [plainUser "user1"; plainUser "user2"]
  = validateReferralChain "newuser" [plainUser "user2"; plainUser "user1"].
Proof.
  assert (Hperm : [plainUser "user1"; plainUser "user2"]
                  ≡ₚ [plainUser "user2"; plainUser "user1"])
    by apply Permutation_swap.
  split; [exact Hperm|].
  apply (validateReferralChain_order_irrelevant "newuser" _ _ Hperm).
Defined.

Lemma validateReferralChain_sublist_witness :
  [plainUser "user1"; plainUser "user3"]
    `sublist_of` [plainUser "user1"; plainUser "user2"; plainUser "user3"] ∧
  validateReferralChain "newuser"
    [plainUser "user1"; plainUser "user2"; plainUser "user3"] = true ∧
  validateReferralChain "newuser" [plainUser "user1"; plainUser "user3"] = true.
Proof.
  assert (Hsub : [plainUser "user1"; plainUser "user3"]
                   `sublist_of` [plainUser "user1"; plainUser "user2"; plainUser "user3"]).
  { apply sublist_skip, sublist_cons, sublist_skip, sublist_nil. }
  assert (Hvalid : validateReferralChain "newuser"
                     [plainUser "user1"; plainUser "user2"; plainUser "user3"] = true)
    by (vm_compute; reflexivity).
  split_and!; [exact Hsub|exact Hvalid|].
  apply (validateReferralChain_sublist "newuser" _ _ Hsub Hvalid).
Defined.

Lemma optimal_tier_is_an_active_tier_witness :
  calculateOptimalFeeTier (dec 5000) tiersWithoutBase = Some vipTier ∧
  vipTier ∈ tiersWithoutBase ∧ FeeTier.isActive vipTier = true.
Proof.
  assert (Hsel : calculateOptimalFeeTier (dec 5000) tiersWithoutBase = Some vipTier)
    by (vm_compute; reflexivity).
  split; [exact Hsel|].
  destruct (optimal_tier_is_an_active_tier (dec 5000) tiersWithoutBase) as [Hactive _].
  exact (Hactive vipTier Hsel).
Defined.

Lemma optimal_tier_has_highest_qualifying_priority_witness :
  (tier1 ∈ mockFeeTiers ∧ FeeTier.isActive tier1 = true ∧
   FeeTier.minimumVolume tier1 ≤ dec 50000) ∧
  ∃ selected,
    calculateOptimalFeeTier (dec 50000) mockFeeTiers = Some selected ∧
    FeeTier.minimumVolume selected ≤ dec 50000 ∧
    ∀ other, other ∈ mockFeeTiers → FeeTier.isActive other = true →
             FeeTier.minimumVolume other ≤ dec 50000 →
             (FeeTier.priority other ≤ FeeTier.priority selected)%Z.
Proof.
  assert (Hin : tier1 ∈ mockFeeTiers) by (right; left).
  assert (Hq : FeeTier.minimumVolume tier1 ≤ dec 50000) by (by vm_compute).
  split; [by split_and!|].
  apply (optimal_tier_has_highest_qualifying_priority (dec 50000) mockFeeTiers).
  exists tier1. by split_and!.
Defined.

Lemma network_value_guarded_witness :
  ¬ 0 < totalVolume (calculateNetworkValue [] mockCommissions) ∧
  averageCommissionRate (calculateNetworkValue [] mockCommissions) = 0.
Proof.
  assert (Hzero : ¬ 0 < totalVolume (calculateNetworkValue [] mockCommissions))
    by (by vm_compute).
  split; [exact Hzero|].
  destruct (network_value_guarded [] mockCommissions) as (_ & Hguard & _).
  exact (Hguard Hzero).
Defined.




Lemma inverted_window_is_empty_witness :
  (5 < 86400000)%Z ∧
  totalEarnings (calculateEarningsBreakdown mockCommissions (Some 86400000%Z)
                   (Some 5%Z)) = 0 ∧
  earningsByToken (calculateEarningsBreakdown mockCommissions (Some 86400000%Z)
                     (Some 5%Z)) = ∅.
Proof.
  assert (Hinv : (5 < 86400000)%Z) by lia.
  split; [exact Hinv|].
  destruct (inverted_window_is_empty mockCommissions 86400000 5 Hinv)
    as (_ & Htotal & _ & _ & _ & Htoken & _).
  by split.
Defined.

Lemma getReferralChain_bounded_witness :
  referredUser "a" (Some "b"%string) ∈ getReferralChain sampleTable "u" ∧
  ∃ id, sampleTable !! id = Some (referredUser "a" (Some "b"%string)).
Proof.
  assert (Hin : referredUser "a" (Some "b"%string) ∈ getReferralChain sampleTable "u")
    by (vm_compute; left).
  split; [exact Hin|].
  destruct (getReferralChain_bounded sampleTable "u") as (_ & Hrows & _).
  exact (Hrows _ Hin).
Defined.

(** In the sample line of descent the chain of u is a followed by c: b, the
    referrer of a, is passed over. *)
Lemma getReferralChain_climbs_two_links_witness :
  getReferralChain sampleTable "u" !! 0%nat = Some (referredUser "a" (Some "b"%string)) ∧
  getReferralChain sampleTable "u" !! 1%nat
  = grandReferrerOf sampleTable (referredUser "a" (Some "b"%string)) ∧
  grandReferrerOf sampleTable (referredUser "a" (Some "b"%string))
  = Some (referredUser "c" None).
Proof.
  assert (Hfirst : getReferralChain sampleTable "u" !! 0%nat
                   = Some (referredUser "a" (Some "b"%string)))
    by (vm_compute; reflexivity).
  split_and!; [exact Hfirst| |vm_compute; reflexivity].
  apply (getReferralChain_climbs_two_links sampleTable "u" 0 _ Hfirst).
Defined.

Lemma updateUserFeeTier_report_witness :
  (∅ : gmap string User.t) !! "user-1"%string = None ∧
  updateUserFeeTier ∅ mockFeeTiers "user-1" = Threw (ApiError "USER_NOT_FOUND").
Proof.
  assert (Hnone : (∅ : gmap string User.t) !! "user-1"%string = None)
    by apply lookup_empty.
  split; [exact Hnone|].
  destruct (updateUserFeeTier_report ∅ mockFeeTiers "user-1") as (Hunknown & _).
  exact (Hunknown Hnone).
Defined.

Lemma updateUserFeeTier_settles_witness :
  let db : gmap string User.t :=
    {[ "user-1"%string := volumeUser (dec 15000) "BASE" ]} in
  let db' : gmap string User.t :=
    {[ "user-1"%string := volumeUser (dec 15000) "TIER1" ]} in
  updateUserFeeTier db mockFeeTiers "user-1"
  = Returned {| oldTier := "BASE"; newTier := "TIER1"; updated := true |}
      (Some "TIER1"%string) ∧
  updateUserFeeTier db' mockFeeTiers "user-1"
  = Returned {| oldTier := "TIER1"; newTier := "TIER1"; updated := false |} None.
Proof.
  cbv zeta.
  assert (Hfirst :
    updateUserFeeTier {[ "user-1"%string := volumeUser (dec 15000) "BASE" ]}
      mockFeeTiers "user-1"
    = Returned {| oldTier := "BASE"; newTier := "TIER1"; updated := true |}
        (Some "TIER1"%string)) by (vm_compute; reflexivity).
  split; [exact Hfirst|].
  apply (updateUserFeeTier_settles
           {[ "user-1"%string := volumeUser (dec 15000) "BASE" ]}
           {[ "user-1"%string := volumeUser (dec 15000) "TIER1" ]}
           mockFeeTiers "user-1"
           (volumeUser (dec 15000) "BASE") (volumeUser (dec 15000) "TIER1")
           _ _ (lookup_singleton_eq _ _) Hfirst (lookup_singleton_eq _ _)
           eq_refl eq_refl).
Defined.
